(** * kakeibo: the ledger core (validators, models, CSV codec, totals)

    A shallow embedding of [src/kakeibo_app/validators.py],
    [src/kakeibo_app/models.py], [src/kakeibo_app/formatters.py] and of the
    import/export handlers of [src/kakeibo_app/ui/main/logic.py], together
    with the parts of the Python runtime these functions call:
    [str.strip], [str.split], [str.isdigit], [decimal.Decimal] (construction
    from a string, [str()], ordering, addition in the default context),
    [datetime.date.fromisoformat], [csv.writer] and [csv.reader] in the
    default (excel) dialect, and text files opened with [newline='']. *)

From Stdlib Require Import String Ascii List NArith ZArith Bool Lia.
Import ListNotations.

(* ================================================================== *)
(** * Python strings *)
(* ================================================================== *)

(** A Python [str] is a sequence of Unicode code points. *)
Abbreviation char := N (only parsing).
Abbreviation str := (list N) (only parsing).

(** Source literals are written as UTF-8 text and decoded to code points. *)
Fixpoint utf8_decode (bs : list N) : str :=
  match bs with
  | [] => []
  | b :: rest =>
      if (b <? 128)%N then b :: utf8_decode rest
      else if (b <? 224)%N then
        match rest with
        | b1 :: r1 => ((b - 192) * 64 + (b1 - 128))%N :: utf8_decode r1
        | _ => []
        end
      else if (b <? 240)%N then
        match rest with
        | b1 :: b2 :: r2 =>
            ((b - 224) * 4096 + (b1 - 128) * 64 + (b2 - 128))%N :: utf8_decode r2
        | _ => []
        end
      else
        match rest with
        | b1 :: b2 :: b3 :: r3 =>
            ((b - 240) * 262144 + (b1 - 128) * 4096 + (b2 - 128) * 64 + (b3 - 128))%N
              :: utf8_decode r3
        | _ => []
        end
  end.

Definition lit (s : string) : str :=
  utf8_decode (map (fun a => N_of_ascii a) (list_ascii_of_string s)).

Fixpoint str_eqb (a b : str) : bool :=
  match a, b with
  | [], [] => true
  | x :: a', y :: b' => (x =? y)%N && str_eqb a' b'
  | _, _ => false
  end.

(** [x in xs] for a list of strings. *)
Definition str_in (x : str) (xs : list str) : bool := existsb (str_eqb x) xs.

Fixpoint is_prefix (p s : str) : bool :=
  match p, s with
  | [], _ => true
  | x :: p', y :: s' => (x =? y)%N && is_prefix p' s'
  | _ :: _, [] => false
  end.

(** [Py_UNICODE_ISSPACE]: the code points that [str.strip()] removes. *)
Definition py_isspace (c : char) : bool :=
  ((9 <=? c) && (c <=? 13) || (28 <=? c) && (c <=? 32) || (c =? 133) || (c =? 160)
   || (c =? 5760) || (8192 <=? c) && (c <=? 8202) || (c =? 8232) || (c =? 8233)
   || (c =? 8239) || (c =? 8287) || (c =? 12288))%N.

Fixpoint lstrip (s : str) : str :=
  match s with
  | c :: s' => if py_isspace c then lstrip s' else s
  | [] => []
  end.

Definition rstrip (s : str) : str := rev (lstrip (rev s)).

(** [s.strip()] *)
Definition strip (s : str) : str := rstrip (lstrip s).

(** [s.replace(old, new)] for a one-character [old]; the source only
    replaces the one-character strings "¥", "," and "/". *)
Fixpoint replace (old : char) (new : str) (s : str) : str :=
  match s with
  | [] => []
  | c :: s' => if (c =? old)%N then new ++ replace old new s' else c :: replace old new s'
  end.

(** [s.split(sep)] for a one-character separator: never returns an empty
    list, and keeps empty pieces. *)
Fixpoint split_aux (sep : char) (cur : str) (s : str) : list str :=
  match s with
  | [] => [rev cur]
  | c :: s' => if (c =? sep)%N then rev cur :: split_aux sep [] s'
               else split_aux sep (c :: cur) s'
  end.

Definition split (sep : char) (s : str) : list str := split_aux sep [] s.

Definition is_ascii_digit (c : char) : bool := ((48 <=? c) && (c <=? 57))%N.

(** The part of the Unicode character database the interpreter consults
    for code points above 127.  It is a property of the interpreter build,
    not of the program, so the development is parametric in it. *)
Class UnicodeData : Type := {
  (** [Py_UNICODE_TODECIMAL] above ASCII: the value of a decimal digit *)
  todecimal : char -> option N;
  (** [Py_UNICODE_ISDIGIT] above ASCII *)
  isdigit_nonascii : char -> bool;
  todecimal_lt_10 : forall c d, todecimal c = Some d -> (d < 10)%N
}.

(* ================================================================== *)
(** * Exceptions *)
(* ================================================================== *)

(** The exceptions the modelled code can raise.  [ValueError] carries its
    message, which the callers compare against fixed codes. *)
Inductive exn : Type :=
| ValueError (msg : str)
| InvalidOperation            (* decimal.InvalidOperation (an ArithmeticError) *)
| Overflow                    (* decimal.Overflow (an ArithmeticError) *)
| OverflowError               (* int() of an infinite Decimal *)
| IndexError
| OSError                     (* open() on an unreadable or unwritable path *)
| CsvError                    (* _csv.Error *)
| IOError (cause : exn).      (* raised by export_csv / import_csv, wrapping the cause *)

Inductive result (A : Type) : Type :=
| Ok (a : A)
| Raise (e : exn).
Arguments Ok {A} a.
Arguments Raise {A} e.

Definition bind {A B} (m : result A) (k : A -> result B) : result B :=
  match m with
  | Ok a => k a
  | Raise e => Raise e
  end.

Declare Scope py_scope.
Delimit Scope py_scope with py.
Notation "x <- m ;; k" := (bind m (fun x => k))
  (at level 61, m at next level, right associativity) : py_scope.
Notation "m ;;; k" := (bind m (fun _ => k))
  (at level 61, right associativity) : py_scope.
Open Scope py_scope.

Definition is_ValueError (e : exn) : bool :=
  match e with ValueError _ => true | _ => false end.

(* ================================================================== *)
(** * decimal.Decimal *)
(* ================================================================== *)

(** A [Decimal] is a sign, a coefficient and an exponent, or a special
    value.  [Fin s c e] denotes [(-1)^s * c * 10^e]; the digits of a
    coefficient are kept exactly as parsed ("1.50" is [Fin false 150 (-2)]). *)
Inductive Decimal : Type :=
| Fin (sign : bool) (coeff : N) (exp : Z)
| Inf (sign : bool)
| NaN (sign : bool) (payload : N)
| sNaN (sign : bool) (payload : N).

(** ** Decimal digits *)

Fixpoint digits_aux (fuel : nat) (n : N) (acc : str) : str :=
  match fuel with
  | O => acc
  | S f =>
      let acc' := (48 + n mod 10)%N :: acc in
      if (n / 10 =? 0)%N then acc' else digits_aux f (n / 10)%N acc'
  end.

(** [str(n)] for a natural number: no leading zeros, "0" for zero. *)
Definition str_of_N (n : N) : str := digits_aux (S (N.to_nat (N.size n))) n [].

(** The value of a string of ASCII digits, most significant first. *)
Definition N_of_digits (s : str) : N :=
  fold_left (fun acc c => (acc * 10 + (c - 48))%N) s 0%N.

(** ["%+d" % z] *)
Definition str_of_Z_signed (z : Z) : str :=
  (if (z <? 0)%Z then 45%N else 43%N) :: str_of_N (Z.abs_N z).

Definition ndigits (c : N) : Z := Z.of_nat (length (str_of_N c)).

(** ** Construction from a string: [Decimal(text)]

    After CPython's [_decimal]: surrounding whitespace is stripped, underscores
    are dropped, a non-ASCII decimal digit is replaced by its ASCII digit, and
    the remainder must match the numeric-string grammar of the decimal module:
    [sign? (digits? ('.' digits?)? (('e'|'E') sign? digits)? | inf | infinity
    | nan digits? | snan digits?)], letters in either case, at least one
    coefficient digit.  The conversion is exact (no rounding to the context
    precision).  The implementation limits of libmpdec on exponents beyond
    10^18 are not modelled. *)

Section WithUnicode.
Context {U : UnicodeData}.

Fixpoint numeric_as_ascii (s : str) : option str :=
  match s with
  | [] => Some []
  | c :: s' =>
      if (c =? 95)%N then numeric_as_ascii s'
      else if (c <? 128)%N then
        if (c =? 0)%N then None else option_map (cons c) (numeric_as_ascii s')
      else if py_isspace c then option_map (cons 32%N) (numeric_as_ascii s')
      else match todecimal c with
           | Some d => option_map (cons (48 + d)%N) (numeric_as_ascii s')
           | None => None
           end
  end.

End WithUnicode.

Definition ascii_lower (c : char) : char :=
  if ((65 <=? c) && (c <=? 90))%N then (c + 32)%N else c.

Fixpoint span_digits (s : str) : str * str :=
  match s with
  | c :: s' =>
      if is_ascii_digit c then let '(d, r) := span_digits s' in (c :: d, r)
      else ([], s)
  | [] => ([], [])
  end.

Definition all_digits (s : str) : bool := forallb is_ascii_digit s.

Definition take_sign (s : str) : bool * str :=
  match s with
  | c :: r => if (c =? 43)%N then (false, r)
              else if (c =? 45)%N then (true, r)
              else (false, s)
  | [] => (false, s)
  end.

(** The text after the exponent indicator: an optional sign and at least
    one digit. *)
Definition parse_exponent (s : str) : option Z :=
  let '(neg, ds) := take_sign s in
  match ds with
  | [] => None
  | _ => if all_digits ds
         then Some (if neg then (- Z.of_N (N_of_digits ds))%Z else Z.of_N (N_of_digits ds))
         else None
  end.

Definition parse_number (sign : bool) (s : str) : option Decimal :=
  let '(ip, r1) := span_digits s in
  let '(fp, r2) := match r1 with
                   | c :: r => if (c =? 46)%N then span_digits r else ([], r1)
                   | [] => ([], r1)
                   end in
  match ip ++ fp with
  | [] => None
  | ds =>
      match r2 with
      | [] => Some (Fin sign (N_of_digits ds) (- Z.of_nat (length fp)))
      | e :: r3 =>
          if ((e =? 101) || (e =? 69))%N then
            match parse_exponent r3 with
            | Some x => Some (Fin sign (N_of_digits ds) (x - Z.of_nat (length fp)))
            | None => None
            end
          else None
      end
  end.

(** The value part of a numeric string, the sign already taken: first the
    special values, compared without regard to case, then a number. *)
Definition parse_unsigned (sign : bool) (s : str) : option Decimal :=
  let l := map ascii_lower s in
  if is_prefix [110; 97; 110]%N l then                    (* nan *)
    let p := skipn 3 s in
    if all_digits p then Some (NaN sign (N_of_digits p)) else None
  else if is_prefix [115; 110; 97; 110]%N l then          (* snan *)
    let p := skipn 4 s in
    if all_digits p then Some (sNaN sign (N_of_digits p)) else None
  else if is_prefix [105; 110; 102]%N l then              (* inf, infinity *)
    if str_eqb l [105; 110; 102]%N
       || str_eqb l [105; 110; 102; 105; 110; 105; 116; 121]%N
    then Some (Inf sign) else None
  else parse_number sign s.

Section WithUnicode.
Context {U : UnicodeData}.

Definition Decimal_of_str (text : str) : result Decimal :=
  match numeric_as_ascii (strip text) with
  | None => Raise InvalidOperation
  | Some a =>
      let '(sign, body) := take_sign a in
      match parse_unsigned sign body with
      | Some d => Ok d
      | None => Raise InvalidOperation
      end
  end.

End WithUnicode.

(** [Decimal(n)] for a non-negative Python int. *)
Definition Decimal_of_N (n : N) : Decimal := Fin false n 0.

(** ** [str(d)]: the scientific string of the decimal module *)

Definition sign_str (s : bool) : str := if s then [45%N] else [].

Definition Decimal_str (d : Decimal) : str :=
  match d with
  | Inf s => sign_str s ++ lit "Infinity"
  | NaN s p => sign_str s ++ lit "NaN" ++ (if (p =? 0)%N then [] else str_of_N p)
  | sNaN s p => sign_str s ++ lit "sNaN" ++ (if (p =? 0)%N then [] else str_of_N p)
  | Fin s c e =>
      let ds := str_of_N c in
      let len := Z.of_nat (length ds) in
      let leftdigits := (e + len)%Z in
      let dotplace := if ((e <=? 0) && (-6 <? leftdigits))%Z then leftdigits else 1%Z in
      let '(intpart, fracpart) :=
        if (dotplace <=? 0)%Z then
          ([48%N], 46%N :: repeat 48%N (Z.to_nat (- dotplace)) ++ ds)
        else if (len <=? dotplace)%Z then
          (ds ++ repeat 48%N (Z.to_nat (dotplace - len)), [])
        else
          (firstn (Z.to_nat dotplace) ds, 46%N :: skipn (Z.to_nat dotplace) ds) in
      let exp := if (leftdigits =? dotplace)%Z then []
                 else 69%N :: str_of_Z_signed (leftdigits - dotplace) in
      sign_str s ++ intpart ++ fracpart ++ exp
  end.

(** ** Ordering *)

Definition signed (s : bool) (c : N) : Z := if s then (- Z.of_N c)%Z else Z.of_N c.

Definition fin_compare (s1 : bool) (c1 : N) (e1 : Z) (s2 : bool) (c2 : N) (e2 : Z)
  : comparison :=
  let m := Z.min e1 e2 in
  (signed s1 c1 * 10 ^ (e1 - m) ?= signed s2 c2 * 10 ^ (e2 - m))%Z.

(** [a < b].  An ordering comparison with a NaN operand signals
    InvalidOperation, which the default context traps: it raises. *)
Definition dec_lt (a b : Decimal) : result bool :=
  match a, b with
  | NaN _ _, _ | sNaN _ _, _ | _, NaN _ _ | _, sNaN _ _ => Raise InvalidOperation
  | Inf s1, Inf s2 => Ok (s1 && negb s2)
  | Inf s1, Fin _ _ _ => Ok s1
  | Fin _ _ _, Inf s2 => Ok (negb s2)
  | Fin s1 c1 e1, Fin s2 c2 e2 =>
      Ok (match fin_compare s1 c1 e1 s2 c2 e2 with Lt => true | _ => false end)
  end.

(** ** Arithmetic in the default context

    [prec=28], [rounding=ROUND_HALF_EVEN], [Emin=-999999], [Emax=999999],
    [clamp=0], traps InvalidOperation, DivisionByZero and Overflow. *)

Definition prec : Z := 28.
Definition Emax : Z := 999999.
Definition Emin : Z := -999999.
Definition Etiny : Z := Emin - prec + 1.
Definition Etop : Z := Emax - prec + 1.

(** Drop the last [k >= 1] digits of [c], rounding half to even. *)
Definition round_half_even (c : N) (k : Z) : N :=
  let p := (10 ^ Z.to_N k)%N in
  let q := (c / p)%N in
  let r := (c mod p)%N in
  let half := (p / 2)%N in
  if ((half <? r) || ((r =? half) && N.odd q))%N then (q + 1)%N else q.

(** [Decimal._fix]: round a finite result to the context. *)
Definition dec_fix (s : bool) (c : N) (e : Z) : result Decimal :=
  if (c =? 0)%N then Ok (Fin s 0 (Z.min (Z.max e Etiny) Emax))
  else
    let len := ndigits c in
    let exp_min0 := (len + e - prec)%Z in
    if (Etop <? exp_min0)%Z then Raise Overflow
    else
      let exp_min := Z.max exp_min0 Etiny in
      if (e <? exp_min)%Z then
        let digits := (len + e - exp_min)%Z in
        let '(c1, e1) := if (digits <? 0)%Z then (1%N, (exp_min - 1)%Z) else (c, e) in
        let coeff := round_half_even c1 (exp_min - e1) in
        let '(coeff', exp_min') :=
          if (prec <? ndigits coeff)%Z then ((coeff / 10)%N, (exp_min + 1)%Z)
          else (coeff, exp_min) in
        if (Etop <? exp_min')%Z then Raise Overflow else Ok (Fin s coeff' exp_min')
      else Ok (Fin s c e).

(** A quiet NaN operand is returned with its payload cut to the precision. *)
Definition fix_nan (s : bool) (p : N) : Decimal := NaN s (p mod 10 ^ 28)%N.

(** [a + b]: the exact sum at the smaller exponent, rounded to the context. *)
Definition dec_add (a b : Decimal) : result Decimal :=
  match a, b with
  | sNaN _ _, _ => Raise InvalidOperation
  | _, sNaN _ _ => Raise InvalidOperation
  | NaN s p, _ => Ok (fix_nan s p)
  | _, NaN s p => Ok (fix_nan s p)
  | Inf s1, Inf s2 => if Bool.eqb s1 s2 then Ok (Inf s1) else Raise InvalidOperation
  | Inf s1, Fin _ _ _ => Ok (Inf s1)
  | Fin _ _ _, Inf s2 => Ok (Inf s2)
  | Fin s1 c1 e1, Fin s2 c2 e2 =>
      let m := Z.min e1 e2 in
      let z := (signed s1 c1 * 10 ^ (e1 - m) + signed s2 c2 * 10 ^ (e2 - m))%Z in
      if (z =? 0)%Z then dec_fix (s1 && s2) 0 m
      else dec_fix (z <? 0)%Z (Z.abs_N z) m
  end.

Definition copy_negate (d : Decimal) : Decimal :=
  match d with
  | Fin s c e => Fin (negb s) c e
  | Inf s => Inf (negb s)
  | NaN s p => NaN (negb s) p
  | sNaN s p => sNaN (negb s) p
  end.

(** [a - b]: NaN operands are propagated first, then [a + (-b)]. *)
Definition dec_sub (a b : Decimal) : result Decimal :=
  match a, b with
  | sNaN _ _, _ => Raise InvalidOperation
  | _, sNaN _ _ => Raise InvalidOperation
  | NaN s p, _ => Ok (fix_nan s p)
  | _, NaN s p => Ok (fix_nan s p)
  | _, _ => dec_add a (copy_negate b)
  end.

(** [int(d)]: truncation toward zero; raises on the special values. *)
Definition dec_int (d : Decimal) : result Z :=
  match d with
  | Fin s c e =>
      if (0 <=? e)%Z then Ok (signed s c * 10 ^ e)%Z
      else Ok (signed s (c / 10 ^ Z.to_N (- e))%N)
  | Inf _ => Raise OverflowError
  | NaN _ _ | sNaN _ _ => Raise (ValueError (lit "cannot convert NaN to integer"))
  end.

(* ================================================================== *)
(** * datetime.date *)
(* ================================================================== *)

Inductive date : Type := Date (year month day : N).

Definition is_leap (y : N) : bool :=
  ((y mod 4 =? 0) && (negb (y mod 100 =? 0) || (y mod 400 =? 0)))%N.

Definition days_in_month (y m : N) : N :=
  (if m =? 2 then (if is_leap y then 29 else 28)
   else if (m =? 4) || (m =? 6) || (m =? 9) || (m =? 11) then 30
   else 31)%N.

(** [date(y, m, d)]: the range checks of the constructor, in its order,
    with the messages of CPython up to 3.13. *)
Definition date_new (y m d : N) : result date :=
  if ((y <? 1) || (9999 <? y))%N then
    Raise (ValueError (lit "year " ++ str_of_N y ++ lit " is out of range"))
  else if ((m <? 1) || (12 <? m))%N then
    Raise (ValueError (lit "month must be in 1..12"))
  else if ((d <? 1) || (days_in_month y m <? d))%N then
    Raise (ValueError (lit "day is out of range for month"))
  else Ok (Date y m d).

(** The message of a rejected ISO string; the quoting of [repr] is kept,
    its escaping of unprintable characters is not modelled. *)
Definition invalid_isoformat (s : str) : exn :=
  ValueError (lit "Invalid isoformat string: '" ++ s ++ lit "'").

(** [date.fromisoformat(s)]: exactly [YYYY-MM-DD] in ASCII digits.  (From
    3.11 on other ISO 8601 forms are accepted too; none of them consists of
    digits and two dashes only, which is all [parse_date] passes in.) *)
Definition fromisoformat (s : str) : result date :=
  match s with
  | [y1; y2; y3; y4; s1; m1; m2; s2; d1; d2] =>
      if (s1 =? 45)%N && (s2 =? 45)%N
         && forallb is_ascii_digit [y1; y2; y3; y4; m1; m2; d1; d2]
      then date_new (N_of_digits [y1; y2; y3; y4]) (N_of_digits [m1; m2])
                    (N_of_digits [d1; d2])
      else Raise (invalid_isoformat s)
  | _ => Raise (invalid_isoformat s)
  end.

(** [needle in hay] for strings. *)
Fixpoint str_contains (needle hay : str) : bool :=
  is_prefix needle hay
  || match hay with
     | [] => false
     | _ :: hay' => str_contains needle hay'
     end.

(* ================================================================== *)
(** * validators.py *)
(* ================================================================== *)

Record Transaction : Type := mkTransaction {
  t_date : str;
  t_transaction_type : str;
  t_category : str;
  t_price : Decimal;
  t_memo : str
}.

Definition is_empty (s : str) : bool := match s with [] => true | _ => false end.

Section Validators.
Context {U : UnicodeData}.

Definition parse_decimal (text : str) : result Decimal :=
  let normalized := strip (replace 44%N [] (replace 165%N [] text)) in
  if is_empty normalized then Raise InvalidOperation
  else Decimal_of_str normalized.

Definition parse_price (text : str) : result Decimal :=
  value <- match parse_decimal text with
           | Raise InvalidOperation => Raise (ValueError (lit "invalid_price"))
           | r => r
           end ;;
  below <- dec_lt value (Decimal_of_N 1) ;;
  if (below : bool) then Raise (ValueError (lit "negative_price")) else Ok value.

Definition isdigit_char (c : char) : bool :=
  if (c <? 128)%N then is_ascii_digit c else isdigit_nonascii c.

(** [s.isdigit()] *)
Definition isdigit (s : str) : bool :=
  match s with
  | [] => false
  | _ => forallb isdigit_char s
  end.

(** The loop [for part in parts: if not part.isdigit(): raise ...]. *)
Fixpoint check_parts (parts : list str) : result unit :=
  match parts with
  | [] => Ok tt
  | part :: rest =>
      if negb (isdigit part) then Raise (ValueError (lit "format_error"))
      else check_parts rest
  end.

Definition parse_date (text : str) : result date :=
  let text := strip text in
  if is_empty text then Raise (ValueError (lit "empty"))
  else
    let parts := split 47%N text in
    if negb (length parts =? 3)%nat then Raise (ValueError (lit "format_error"))
    else
      check_parts parts ;;;
      match fromisoformat (replace 47%N [45%N] text) with
      | Raise (ValueError e) =>
          if str_contains (lit "month must be in") e
             || str_contains (lit "day is out of range") e
          then Raise (ValueError (lit "invalid_date"))
          else Raise (ValueError (lit "format_error"))
      | r => r
      end.

Definition validate_transaction_type (text : str) (transaction_types : list str)
  : result str :=
  let value := strip text in
  if negb (str_in value transaction_types) then Raise (ValueError (lit "invalid_type"))
  else Ok value.

(** The literal "支出" (expense) the source compares the type with. *)
Definition EXPENSE : str := Eval vm_compute in lit "支出".

(** [categories[0]] *)
Definition first_entry (categories : list str) : result str :=
  match categories with
  | c :: _ => Ok c
  | [] => Raise IndexError
  end.

Definition normalize_category (category transaction_type : str)
    (expense_categories income_categories : list str) : result str :=
  let categories := if str_eqb transaction_type EXPENSE
                    then expense_categories else income_categories in
  let normalized := if is_empty category then [] else strip category in
  if is_empty normalized || negb (str_in normalized categories)
  then first_entry categories
  else Ok normalized.

Definition build_transaction_from_form
    (date_str transaction_type category price_str memo : str)
    (expense_categories income_categories transaction_types : list str)
  : result Transaction :=
  parse_date date_str ;;;
  validated_type <- validate_transaction_type transaction_type transaction_types ;;
  price <- parse_price price_str ;;
  normalized_category <- normalize_category category validated_type
                           expense_categories income_categories ;;
  Ok (mkTransaction date_str validated_type normalized_category price (strip memo)).

Definition build_transaction_from_row (row : list str)
    (expense_categories income_categories transaction_types : list str)
  : result Transaction :=
  match row with
  | date_str :: transaction_type :: category :: price_s :: rest =>
      let memo := match rest with m :: _ => m | [] => [] end in
      build_transaction_from_form (strip date_str) transaction_type category price_s memo
        expense_categories income_categories transaction_types
  | _ => Raise (ValueError (lit "insufficient_columns"))
  end.

End Validators.

(** The vocabularies.  [kakeibo_app/constants.py] is not among the sources;
    the three lists are those of [app/kakeibo.py], the single-file version
    of the same program, which defines them under the same names. *)
Definition EXPENSE_CATEGORIES : list str := Eval vm_compute in
  map lit ["食費"; "日用品"; "交通"; "交際費"; "娯楽";
           "住居"; "光熱費"; "医療"; "教育"; "貯金"; "その他"]%string.

Definition INCOME_CATEGORIES : list str := Eval vm_compute in
  map lit ["給与"; "ボーナス"; "副業"; "投資"; "その他収入"]%string.

Definition TRANSACTION_TYPES : list str := Eval vm_compute in
  map lit ["支出"; "収入"]%string.

(* ================================================================== *)
(** * Text files and the csv module (excel dialect) *)
(* ================================================================== *)

(** The lines of a text file opened with [newline='']: a line ends after
    "\n", after "\r\n" or after a lone "\r", and keeps its terminator. *)
Fixpoint readlines_aux (cur : str) (s : str) : list str :=
  match s with
  | [] => match cur with [] => [] | _ => [rev cur] end
  | c :: s' =>
      if (c =? 10)%N then rev (c :: cur) :: readlines_aux [] s'
      else if (c =? 13)%N then
        match s' with
        | c' :: s'' =>
            if (c' =? 10)%N then rev (c' :: c :: cur) :: readlines_aux [] s''
            else rev (c :: cur) :: readlines_aux [] s'
        | [] => [rev (c :: cur)]
        end
      else readlines_aux (c :: cur) s'
  end.

Definition readlines (s : str) : list str := readlines_aux [] s.

(** ** csv.writer: delimiter ",", quotechar, doubled quotes, QUOTE_MINIMAL,
    lineterminator "\r\n" *)

Definition needs_quote (c : char) : bool :=
  ((c =? 44) || (c =? 34) || (c =? 13) || (c =? 10))%N.

Definition csv_field (f : str) : str :=
  if existsb needs_quote f then 34%N :: replace 34%N [34%N; 34%N] f ++ [34%N]
  else f.

Fixpoint csv_join (fields : list str) : str :=
  match fields with
  | [] => []
  | [f] => csv_field f
  | f :: rest => csv_field f ++ 44%N :: csv_join rest
  end.

(** [writer.writerow(fields)]: the text of one record.  A record made of a
    single empty field is written as a pair of quotes. *)
Definition csv_writerow (fields : list str) : str :=
  let rec := csv_join fields in
  (match fields, rec with
   | _ :: _, [] => [34%N; 34%N]
   | _, _ => rec
   end) ++ [13%N; 10%N].

(** ** csv.reader: the state machine of [_csv.c] without escape character,
    non-strict.  States that need an escape character are unreachable. *)

Inductive ParserState : Type :=
| START_RECORD | START_FIELD | IN_FIELD | IN_QUOTED_FIELD
| QUOTE_IN_QUOTED_FIELD | EAT_CRNL.

Record Reader : Type := mkReader {
  state : ParserState;
  field : str;              (* the field under construction, reversed *)
  fields : list str         (* the fields of the record so far, reversed *)
}.

(** What the parser is fed: a character of the line, or the end-of-line
    mark sent after each line. *)
Inductive pchar : Type := Ch (c : char) | EOL.

Definition parse_reset : Reader := mkReader START_RECORD [] [].

Definition parse_save_field (r : Reader) : Reader :=
  mkReader (state r) [] (rev (field r) :: fields r).

Definition parse_add_char (r : Reader) (c : char) : Reader :=
  mkReader (state r) (c :: field r) (fields r).

Definition set_state (r : Reader) (s : ParserState) : Reader :=
  mkReader s (field r) (fields r).

Definition is_newline (c : char) : bool := ((c =? 10) || (c =? 13))%N.

Definition start_field (r : Reader) (c : pchar) : Reader :=
  match c with
  | EOL => set_state (parse_save_field r) START_RECORD
  | Ch x =>
      if is_newline x then set_state (parse_save_field r) EAT_CRNL
      else if (x =? 34)%N then set_state r IN_QUOTED_FIELD
      else if (x =? 44)%N then set_state (parse_save_field r) START_FIELD
      else set_state (parse_add_char r x) IN_FIELD
  end.

Definition parse_process_char (r : Reader) (c : pchar) : result Reader :=
  match state r with
  | START_RECORD =>
      match c with
      | EOL => Ok r
      | Ch x => if is_newline x then Ok (set_state r EAT_CRNL) else Ok (start_field r c)
      end
  | START_FIELD => Ok (start_field r c)
  | IN_FIELD =>
      match c with
      | EOL => Ok (set_state (parse_save_field r) START_RECORD)
      | Ch x =>
          if is_newline x then Ok (set_state (parse_save_field r) EAT_CRNL)
          else if (x =? 44)%N then Ok (set_state (parse_save_field r) START_FIELD)
          else Ok (parse_add_char r x)
      end
  | IN_QUOTED_FIELD =>
      match c with
      | EOL => Ok r
      | Ch x => if (x =? 34)%N then Ok (set_state r QUOTE_IN_QUOTED_FIELD)
                else Ok (parse_add_char r x)
      end
  | QUOTE_IN_QUOTED_FIELD =>
      match c with
      | EOL => Ok (set_state (parse_save_field r) START_RECORD)
      | Ch x =>
          if (x =? 34)%N then Ok (set_state (parse_add_char r x) IN_QUOTED_FIELD)
          else if (x =? 44)%N then Ok (set_state (parse_save_field r) START_FIELD)
          else if is_newline x then Ok (set_state (parse_save_field r) EAT_CRNL)
          else Ok (set_state (parse_add_char r x) IN_FIELD)
      end
  | EAT_CRNL =>
      match c with
      | EOL => Ok (set_state r START_RECORD)
      | Ch x => if is_newline x then Ok r
                else Raise CsvError   (* new-line character seen in unquoted field *)
      end
  end.

Fixpoint parse_chars (r : Reader) (line : str) : result Reader :=
  match line with
  | [] => Ok r
  | c :: rest => r' <- parse_process_char r (Ch c) ;; parse_chars r' rest
  end.

(** One line: its characters, then the end-of-line mark. *)
Definition parse_line (r : Reader) (line : str) : result Reader :=
  r' <- parse_chars r line ;; parse_process_char r' EOL.

Definition is_START_RECORD (s : ParserState) : bool :=
  match s with START_RECORD => true | _ => false end.

Definition is_IN_QUOTED_FIELD (s : ParserState) : bool :=
  match s with IN_QUOTED_FIELD => true | _ => false end.

(** [list(reader)]: each record takes lines until the parser is back at
    START_RECORD; at the end of the input an unfinished record is returned
    if a field is pending.  The field size limit is not modelled. *)
Fixpoint reader_rows (r : Reader) (lines : list str) : result (list (list str)) :=
  match lines with
  | [] =>
      if negb (is_empty (field r)) || is_IN_QUOTED_FIELD (state r)
      then Ok [rev (fields (parse_save_field r))]
      else Ok []
  | line :: rest =>
      r' <- parse_line r line ;;
      if is_START_RECORD (state r')
      then rows <- reader_rows parse_reset rest ;; Ok (rev (fields r') :: rows)
      else reader_rows r' rest
  end.

Definition csv_reader (lines : list str) : result (list (list str)) :=
  reader_rows parse_reset lines.

(* ================================================================== *)
(** * State and exceptions *)
(* ================================================================== *)

(** A computation on a mutable object of type [S]: it returns a value or
    raises, and leaves the object as mutated so far (an exception does not
    roll anything back). *)
Definition M (S A : Type) : Type := S -> result A * S.

Definition ret {S A} (a : A) : M S A := fun s => (Ok a, s).

Definition raise {S A} (e : exn) : M S A := fun s => (Raise e, s).

Definition lift {S A} (r : result A) : M S A := fun s => (r, s).

Definition mbind {S A B} (m : M S A) (k : A -> M S B) : M S B :=
  fun s => match m s with
           | (Ok a, s') => k a s'
           | (Raise e, s') => (Raise e, s')
           end.

Definition get {S} : M S S := fun s => (Ok s, s).

Definition modify {S} (f : S -> S) : M S unit := fun s => (Ok tt, f s).

(** [try: m except Exception as e: h e] *)
Definition try_except {S A} (m : M S A) (h : exn -> M S A) : M S A :=
  fun s => match m s with
           | (Raise e, s') => h e s'
           | r => r
           end.

Notation "x <~ m ;; k" := (mbind m (fun x => k))
  (at level 61, m at next level, right associativity) : py_scope.
Notation "m ;;~ k" := (mbind m (fun _ => k))
  (at level 61, right associativity) : py_scope.

(* ================================================================== *)
(** * models.py *)
(* ================================================================== *)

(** The dict produced by [Transaction.to_dict]: five fixed keys. *)
Record Item : Type := mkItem {
  item_date : str;
  item_transaction_type : str;
  item_category : str;
  item_price : Decimal;
  item_memo : str
}.

Definition to_dict (t : Transaction) : Item :=
  mkItem (t_date t) (t_transaction_type t) (t_category t) (t_price t) (t_memo t).

(** [TransactionManager.items]: a Python dict keeps its keys in insertion
    order; assigning to a present key replaces the value in place. *)
Definition dict : Type := list (str * Item).

Fixpoint dict_set (d : dict) (k : str) (v : Item) : dict :=
  match d with
  | [] => [(k, v)]
  | (k', v') :: d' => if str_eqb k' k then (k, v) :: d' else (k', v') :: dict_set d' k v
  end.

Fixpoint dict_get (d : dict) (k : str) : option Item :=
  match d with
  | [] => None
  | (k', v') :: d' => if str_eqb k' k then Some v' else dict_get d' k
  end.

Fixpoint dict_del (d : dict) (k : str) : dict :=
  match d with
  | [] => []
  | (k', v') :: d' => if str_eqb k' k then d' else (k', v') :: dict_del d' k
  end.

Definition values (d : dict) : list Item := map snd d.

Record TransactionManager : Type := mkManager { items : dict }.

(** The files on disk, as far as the program can see them: the text of
    each readable path, and whether a path can be opened for writing. *)
Record FileSystem : Type := mkFS {
  file_text : str -> option str;
  writable : str -> bool
}.

Definition fs_write (fs : FileSystem) (path text : str) : FileSystem :=
  mkFS (fun p => if str_eqb p path then Some text else file_text fs p) (writable fs).

(** The manager's methods run on the manager and the disk. *)
Definition Store : Type := (TransactionManager * FileSystem)%type.

Definition add_transaction (iid : str) (transaction : Transaction) : M Store unit :=
  modify (fun '(self, fs) => (mkManager (dict_set (items self) iid (to_dict transaction)), fs)).

Definition update_transaction (iid : str) (transaction : Transaction) : M Store unit :=
  modify (fun '(self, fs) => (mkManager (dict_set (items self) iid (to_dict transaction)), fs)).

Definition delete_transaction (iid : str) : M Store unit :=
  modify (fun '(self, fs) => (mkManager (dict_del (items self) iid), fs)).

Definition get_transaction (iid : str) : M Store (option Item) :=
  fun s => (Ok (dict_get (items (fst s)) iid), s).

Definition get_all_items : M Store dict :=
  fun s => (Ok (items (fst s)), s).

(** The loop of [calculate_totals]: one pass, two accumulators. *)
Fixpoint totals_loop (vals : list Item) (expense income : Decimal)
  : result (Decimal * Decimal) :=
  match vals with
  | [] => Ok (expense, income)
  | item :: rest =>
      if str_eqb (item_transaction_type item) EXPENSE then
        expense' <- dec_add expense (item_price item) ;;
        totals_loop rest expense' income
      else
        income' <- dec_add income (item_price item) ;;
        totals_loop rest expense income'
  end.

Definition totals (d : dict) : result (Decimal * Decimal * Decimal) :=
  acc <- totals_loop (values d) (Decimal_of_N 0) (Decimal_of_N 0) ;;
  let '(expense, income) := acc in
  net <- dec_sub income expense ;;
  Ok (expense, income, net).

Definition calculate_totals : M Store (Decimal * Decimal * Decimal) :=
  fun s => (totals (items (fst s)), s).

Definition HEADER : list str := Eval vm_compute in
  map lit ["日付"; "種類"; "カテゴリ"; "金額"; "メモ"]%string.

Definition item_row (item : Item) : list str :=
  [item_date item; item_transaction_type item; item_category item;
   Decimal_str (item_price item); item_memo item].

(** The text [export_csv] writes: the header, then a row per item. *)
Definition export_text (d : dict) : str :=
  csv_writerow HEADER ++ concat (map (fun item => csv_writerow (item_row item)) (values d)).

Definition export_csv (path : str) : M Store nat :=
  fun '(self, fs) =>
    if writable fs path
    then (Ok (length (items self)), (self, fs_write fs path (export_text (items self))))
    else (Raise (IOError OSError), (self, fs)).

(** The row loop of [import_csv]: only a ValueError of the validator is
    caught; anything else leaves the loop. *)
Fixpoint import_rows (validators : list str -> result Transaction)
    (rows : list (list str)) (added invalid : nat) (transactions : list Transaction)
  : result (nat * nat * list Transaction) :=
  match rows with
  | [] => Ok (added, invalid, transactions)
  | row :: rest =>
      match validators row with
      | Ok transaction =>
          import_rows validators rest (S added) invalid (transactions ++ [transaction])
      | Raise (ValueError _) =>
          import_rows validators rest added (S invalid) transactions
      | Raise e => Raise e
      end
  end.

Definition list_str_eqb (a b : list str) : bool :=
  (length a =? length b)%nat && forallb (fun p => str_eqb (fst p) (snd p)) (combine a b).

(** The body of the outer [try] of [import_csv], given the decoded text. *)
Definition import_text (validators : list str -> result Transaction) (text : str)
  : result (nat * nat * list Transaction) :=
  rows <- csv_reader (readlines text) ;;
  let start_idx :=
    match rows with
    | row0 :: _ => if list_str_eqb (firstn 4 row0) (firstn 4 HEADER) then 1%nat else 0%nat
    | [] => 0%nat
    end in
  import_rows validators (skipn start_idx rows) 0 0 [].

Definition import_csv (path : str) (validators : list str -> result Transaction)
  : M Store (nat * nat * list Transaction) :=
  fun '(self, fs) =>
    match file_text fs path with
    | None => (Raise (IOError OSError), (self, fs))
    | Some text =>
        match import_text validators text with
        | Ok r => (Ok r, (self, fs))
        | Raise e => (Raise (IOError e), (self, fs))
        end
    end.

(* ================================================================== *)
(** * formatters.py *)
(* ================================================================== *)

Fixpoint commas_rev (ds : str) (k : nat) : str :=
  match ds with
  | [] => []
  | d :: rest => if (k =? 3)%nat then 44%N :: d :: commas_rev rest 1
                 else d :: commas_rev rest (S k)
  end.

(** [f"{z:,}"] *)
Definition format_comma (z : Z) : str :=
  (if (z <? 0)%Z then [45%N] else []) ++ rev (commas_rev (rev (str_of_N (Z.abs_N z))) 0).

Definition format_yen (value : Decimal) : result str :=
  z <- dec_int value ;; Ok (165%N :: format_comma z).

(* ================================================================== *)
(** * ui/main/logic.py: totals, import and export handlers *)
(* ================================================================== *)

(** The Treeview widget: its rows in display order and the counter Tk
    uses to name new rows. *)
Record Treeview : Type := mkTree {
  rows : list (str * list str);
  next_id : N
}.

Definition hex_digit (d : N) : char := (if d <? 10 then 48 + d else 55 + d)%N.

Fixpoint hex_aux (fuel : nat) (n : N) (acc : str) : str :=
  match fuel with
  | O => acc
  | S f =>
      let acc' := hex_digit (n mod 16) :: acc in
      if (n / 16 =? 0)%N then acc' else hex_aux f (n / 16)%N acc'
  end.

(** Tk names a new row "I001", "I002", ...: the counter in upper-case
    hexadecimal, at least three digits. *)
Definition item_id (n : N) : str :=
  let h := hex_aux (S (N.to_nat (N.size n))) n [] in
  73%N :: repeat 48%N (3 - length h) ++ h.

Inductive dialog : Type :=
| showinfo (title message : str)
| showerror (title : str) (e : exn).

Record App : Type := mkApp {
  manager : TransactionManager;
  disk : FileSystem;
  tree : Treeview;
  total_var : str;
  detail_var : str;
  dialogs : list dialog          (* the message boxes shown, oldest first *)
}.

(** Run a manager method on the application's manager and disk. *)
Definition on_manager {A} (m : M Store A) : M App A :=
  fun app =>
    let '(r, (mgr, fs)) := m (manager app, disk app) in
    (r, mkApp mgr fs (tree app) (total_var app) (detail_var app) (dialogs app)).

(** [app.tree.insert(parent, "end", values=...)] *)
Definition tree_insert (vals : list str) : M App str :=
  fun app =>
    let n := (next_id (tree app) + 1)%N in
    let iid := item_id n in
    (Ok iid, mkApp (manager app) (disk app)
               (mkTree (rows (tree app) ++ [(iid, vals)]) n)
               (total_var app) (detail_var app) (dialogs app)).

Definition set_total_var (s : str) : M App unit :=
  modify (fun app => mkApp (manager app) (disk app) (tree app) s (detail_var app)
                       (dialogs app)).

Definition set_detail_var (s : str) : M App unit :=
  modify (fun app => mkApp (manager app) (disk app) (tree app) (total_var app) s
                       (dialogs app)).

Definition messagebox (d : dialog) : M App unit :=
  modify (fun app => mkApp (manager app) (disk app) (tree app) (total_var app)
                       (detail_var app) (dialogs app ++ [d])).

Definition update_total : M App unit :=
  t <~ on_manager calculate_totals ;;
  let '(expense, income, net) := t in
  total <~ lift (format_yen net) ;;
  set_total_var total ;;~
  e <~ lift (format_yen expense) ;;
  i <~ lift (format_yen income) ;;
  set_detail_var (lit "（支出: " ++ e ++ lit " / 収入: " ++ i ++ lit "）").

Section Handlers.
Context {U : UnicodeData}.

(** The validator the import handler passes to [import_csv]. *)
Definition row_validator (row : list str) : result Transaction :=
  build_transaction_from_row row EXPENSE_CATEGORIES INCOME_CATEGORIES TRANSACTION_TYPES.

(** The commit loop of [on_import_csv]. *)
Fixpoint insert_all (transactions : list Transaction) : M App unit :=
  match transactions with
  | [] => ret tt
  | transaction :: rest =>
      price <~ lift (format_yen (t_price transaction)) ;;
      iid <~ tree_insert [t_date transaction; t_transaction_type transaction;
                          t_category transaction; price; t_memo transaction] ;;
      on_manager (add_transaction iid transaction) ;;~
      insert_all rest
  end.

Definition import_message (added invalid : nat) : str :=
  str_of_N (N.of_nat added) ++ lit "件取り込みました。"
  ++ (if (0 <? invalid)%nat
      then 10%N :: lit "無効なデータ: " ++ str_of_N (N.of_nat invalid) ++ lit "件"
      else []).

(** [on_import_csv], given the path chosen in the file dialog (empty when
    the dialog is cancelled).  [apply_sort], which only reorders the rows
    of the widget, is left out. *)
Definition on_import_csv (path : str) : M App unit :=
  if is_empty path then ret tt
  else
    try_except
      (r <~ on_manager (import_csv path row_validator) ;;
       let '(added, invalid, transactions) := r in
       insert_all transactions ;;~
       update_total ;;~
       messagebox (showinfo (lit "一括取込") (import_message added invalid)))
      (fun e => messagebox (showerror (lit "取込エラー") e)).

(** [on_export_csv], given the path chosen in the file dialog.  The file
    name shown in the confirmation is the path itself here. *)
Definition on_export_csv (path : str) : M App unit :=
  d <~ on_manager get_all_items ;;
  if match d with [] => true | _ => false end
  then messagebox (showinfo (lit "保存") (lit "保存するデータがありません。"))
  else if is_empty path then ret tt
  else
    try_except
      (on_manager (export_csv path) ;;~
       messagebox (showinfo (lit "保存") (lit "保存しました：" ++ 10%N :: path)))
      (fun e => messagebox (showerror (lit "保存エラー") e)).

End Handlers.

(* ================================================================== *)
(** * Vocabulary of the specification *)
(* ================================================================== *)



(** The category list that goes with a kind. *)
Definition categories_of (transaction_type : str)
    (expense_categories income_categories : list str) : list str :=
  if str_eqb transaction_type EXPENSE then expense_categories else income_categories.

(** "Three '/'-separated numeric groups": the three numbers, when the
    trimmed text splits into exactly three non-empty groups of ASCII digits. *)
Definition numeric_groups (text : str) : option (N * N * N) :=
  match split 47%N (strip text) with
  | [a; b; c] =>
      if negb (is_empty a) && negb (is_empty b) && negb (is_empty c)
         && all_digits a && all_digits b && all_digits c
      then Some (N_of_digits a, N_of_digits b, N_of_digits c)
      else None
  | _ => None
  end.

(** A real calendar date: the month is in 1..12 and the day exists in that
    month of that year. *)
Definition real_calendar_date (y m d : N) : bool :=
  ((1 <=? m) && (m <=? 12) && (1 <=? d) && (d <=? days_in_month y m))%N.

(** The amount of a finite Decimal in units of [10^M], for [M] at most its
    exponent: an integer, so that sums of amounts are compared exactly. *)
Definition dec_units (M : Z) (d : Decimal) : option Z :=
  match d with
  | Fin s c e => if (M <=? e)%Z then Some (signed s c * 10 ^ (e - M))%Z else None
  | _ => None
  end.

(** A finite, non-negative amount with exponent at least [M]. *)
Definition amount_at (M : Z) (d : Decimal) : Prop :=
  exists c e, d = Fin false c e /\ (M <= e)%Z.

Definition units_or_0 (M : Z) (d : Decimal) : Z :=
  match dec_units M d with Some z => z | None => 0%Z end.

(** The exact sum, in units of [10^M], of the amounts of the entries that
    are ([expense = true]) or are not of the expense type. *)
Definition exact_sum (M : Z) (expense : bool) (vals : list Item) : Z :=
  fold_right Z.add 0%Z
    (map (fun it => units_or_0 M (item_price it))
       (filter (fun it => Bool.eqb (str_eqb (item_transaction_type it) EXPENSE) expense)
          vals)).

(* ================================================================== *)
(** * The reader as a machine on one stream *)
(* ================================================================== *)

(** The parser input of a whole text: its characters with the end-of-line
    mark after each line, produced left to right.  [opened] says that the
    current line has characters already, [pending] that its last character
    is a carriage return whose line is not closed yet. *)
Fixpoint line_events (opened pending : bool) (s : str) : list pchar :=
  match s with
  | [] => if opened || pending then [EOL] else []
  | c :: s' =>
      if (c =? 10)%N then Ch c :: EOL :: line_events false false s'
      else (if pending then [EOL] else [])
           ++ Ch c :: line_events true (c =? 13)%N s'
  end.



(* ================================================================== *)
(** * A fragment of the Unicode database *)
(* ================================================================== *)

Definition is_fullwidth_digit (c : char) : bool := ((65296 <=? c) && (c <=? 65305))%N.

(** The fullwidth digits U+FF10..U+FF19, enough to run the definitions. *)
Definition fullwidth_digits : UnicodeData := {|
  todecimal := fun c => if is_fullwidth_digit c then Some (c - 65296)%N else None;
  isdigit_nonascii := is_fullwidth_digit;
  todecimal_lt_10 := ltac:(intros c d; unfold is_fullwidth_digit;
    destruct (65296 <=? c)%N eqn:E1; destruct (c <=? 65305)%N eqn:E2; simpl;
    intros H; inversion H; apply N.leb_le in E1; apply N.leb_le in E2; lia)
|}.

(* ================================================================== *)
(** * Auxiliary definitions for the proofs and the examples *)
(* ================================================================== *)


Definition digit_step (acc : N) (c : char) : N := (acc * 10 + (c - 48))%N.








Definition nan_file : str := Eval vm_compute in
  lit "2024/01/05,支出,食費,100" ++ [13%N; 10%N]
  ++ lit "2024/01/06,収入,給与,NaN" ++ [13%N; 10%N]
  ++ lit "2024/01/07,支出,交通,300" ++ [13%N; 10%N].

Definition short_row_file : str := Eval vm_compute in
  lit "日付,種類,カテゴリ,金額,メモ" ++ [13%N; 10%N]
  ++ lit "2024/01/05,支出,食費,100,lunch" ++ [13%N; 10%N]
  ++ lit "2024/01/06,収入" ++ [13%N; 10%N]
  ++ lit "2024/01/07,収入,給与,250000," ++ [13%N; 10%N]
  ++ lit "2024/01/08,支出,交通,300" ++ [10%N].

(** [sep.join(parts)] *)
Fixpoint join (sep : char) (parts : list str) : str :=
  match parts with
  | [] => []
  | [p] => p
  | p :: rest => p ++ sep :: join sep rest
  end.

(** An accumulator of the totals loop that holds [z] units of [10^M]. *)
Definition holds (M : Z) (d : Decimal) (z : Z) : Prop :=
  exists s c x, d = Fin s c x /\ (M <= x <= 0)%Z /\ (signed s c * 10 ^ (x - M) = z)%Z.

Definition spec_entries : dict :=
  [(item_id 1, mkItem (lit "2024/01/05") (lit "支出") (lit "食費") (Fin false 100 0) []);
   (item_id 2, mkItem (lit "2024/01/06") (lit "収入") (lit "給与") (Fin false 250 0) []);
   (item_id 3, mkItem (lit "2024/01/07") (lit "支出") (lit "交通") (Fin false 50 0) [])].

Definition big_entries : dict :=
  [(item_id 1, mkItem (lit "2024/01/05") (lit "支出") (lit "食費") (Fin false (10 ^ 28) 0) []);
   (item_id 2, mkItem (lit "2024/01/06") (lit "支出") (lit "食費") (Fin false 1 0) [])].

(* ================================================================== *)
(** * Strings: equality, membership, trimming *)
(* ================================================================== *)

Lemma str_eqb_eq (a b : str) : str_eqb a b = true <-> a = b.
Proof.
  revert b; induction a as [|x a IH]; intros [|y b]; simpl; split; intros H;
    try reflexivity; try discriminate.
  - apply andb_prop in H as [H1 H2]. apply N.eqb_eq in H1. apply IH in H2. congruence.
  - inversion H; subst. rewrite N.eqb_refl. simpl. now apply IH.
Qed.

Lemma str_eqb_refl (a : str) : str_eqb a a = true.
Proof. now apply str_eqb_eq. Qed.

Lemma str_eqb_neq (a b : str) : str_eqb a b = false <-> a <> b.
Proof.
  split; intros H.
  - intros E. apply str_eqb_eq in E. congruence.
  - destruct (str_eqb a b) eqn:E; [|reflexivity]. apply str_eqb_eq in E. contradiction.
Qed.

Lemma str_in_In (x : str) (xs : list str) : str_in x xs = true <-> In x xs.
Proof.
  unfold str_in. rewrite existsb_exists. split.
  - intros [y [Hy E]]. apply str_eqb_eq in E. now subst.
  - intros H. exists x. split; [assumption | apply str_eqb_refl].
Qed.

Lemma str_in_not_In (x : str) (xs : list str) : str_in x xs = false <-> ~ In x xs.
Proof.
  rewrite <- str_in_In. destruct (str_in x xs); split; intros H; congruence.
Qed.

Lemma is_empty_nil (s : str) : is_empty s = true <-> s = [].
Proof. destruct s; simpl; split; intros H; congruence. Qed.




Lemma rstrip_nil : rstrip [] = [].
Proof. reflexivity. Qed.







Lemma replace_fixed (old : char) (new s : str) :
  Forall (fun c => c <> old) s -> replace old new s = s.
Proof.
  induction 1 as [|c s Hc _ IH]; simpl; [reflexivity|].
  apply N.eqb_neq in Hc. now rewrite Hc, IH.
Qed.

(* ================================================================== *)
(** * Decimal digits *)
(* ================================================================== *)






Lemma digits_aux_length_ge (fuel : nat) :
  forall n acc, (length acc <= length (digits_aux fuel n acc))%nat.
Proof.
  induction fuel as [|f IH]; intros n acc; [apply Nat.le_refl|].
  cbn [digits_aux]. cbv zeta. destruct (n / 10 =? 0)%N.
  - simpl. lia.
  - etransitivity; [|apply IH]. simpl. lia.
Qed.

Lemma str_of_N_nonempty (n : N) : str_of_N n <> [].
Proof.
  unfold str_of_N. cbn [digits_aux]. cbv zeta. destruct (n / 10 =? 0)%N.
  - discriminate.
  - intros E. apply (f_equal (@length char)) in E.
    match type of E with
    | length (digits_aux ?f ?m ?a) = _ => pose proof (digits_aux_length_ge f m a) as H
    end.
    rewrite E in H. simpl in H. lia.
Qed.

Lemma digits_aux_length_le (fuel : nat) :
  forall n acc k, (1 <= k)%nat -> (n < 10 ^ N.of_nat k)%N ->
    (length (digits_aux fuel n acc) <= k + length acc)%nat.
Proof.
  induction fuel as [|f IH]; intros n acc k Hk Hn; [simpl; lia|].
  cbn [digits_aux]. cbv zeta. destruct (n / 10 =? 0)%N eqn:E.
  - simpl. lia.
  - apply N.eqb_neq in E.
    destruct k as [|[|k]]; [lia| |].
    + exfalso. apply E. apply N.div_small. simpl in Hn. lia.
    + etransitivity; [apply (IH _ _ (S k))|simpl; lia]; [lia|].
      rewrite (Nnat.Nat2N.inj_succ (S k)), N.pow_succ_r' in Hn.
      apply N.Div0.div_lt_upper_bound. lia.
Qed.

Lemma ndigits_le (n : N) (k : nat) :
  (1 <= k)%nat -> (n < 10 ^ N.of_nat k)%N -> (ndigits n <= Z.of_nat k)%Z.
Proof.
  intros Hk Hn. unfold ndigits, str_of_N.
  pose proof (digits_aux_length_le (S (N.to_nat (N.size n))) n [] k Hk Hn) as H.
  simpl length in H at 2. lia.
Qed.

Lemma ndigits_pos (n : N) : (1 <= ndigits n)%Z.
Proof.
  unfold ndigits. pose proof (str_of_N_nonempty n). destruct (str_of_N n); simpl; [congruence | lia].
Qed.



Lemma fold_digit_step_0 (s : str) (n : N) :
  (fold_left digit_step s n = n * 10 ^ N.of_nat (length s) + fold_left digit_step s 0)%N.
Proof.
  revert n; induction s as [|c s IH]; intros n.
  - simpl. lia.
  - cbn [fold_left length]. rewrite IH, (IH (digit_step 0 c)).
    unfold digit_step. rewrite Nnat.Nat2N.inj_succ, N.pow_succ_r'. lia.
Qed.


(* ================================================================== *)
(** * Decimal: [Decimal(str(d)) = d] *)
(* ================================================================== *)





Section DecimalRoundTrip.
Context {U : UnicodeData}.


End DecimalRoundTrip.













Section DecimalRoundTrip.
Context {U : UnicodeData}.





End DecimalRoundTrip.

(* ================================================================== *)
(** * csv: reading back what the writer wrote *)
(* ================================================================== *)



Lemma line_events_opened (o o' p : bool) (c : char) (s : str) :
  line_events o p (c :: s) = line_events o' p (c :: s).
Proof. reflexivity. Qed.



















(* ================================================================== *)
(** * Validators: what a built transaction looks like *)
(* ================================================================== *)



(** Whatever [normalize_category] returns is an entry of the list that
    goes with the kind. *)
Lemma normalize_category_member (category ty : str) (es is_ : list str) (c : str) :
  normalize_category category ty es is_ = Ok c -> In c (categories_of ty es is_).
Proof.
  unfold normalize_category, categories_of.
  set (cats := if str_eqb ty EXPENSE then es else is_).
  set (n := if is_empty category then [] else strip category).
  destruct (is_empty n || negb (str_in n cats)) eqn:E.
  - destruct cats as [|c0 cats']; simpl; intros H; inversion H. now left.
  - intros H. inversion H; subst c. apply orb_false_elim in E as [_ E].
    apply negb_false_iff in E. now apply str_in_In.
Qed.



Section Pipeline.
Context {U : UnicodeData}.

(** The steps a successful build went through. *)
Lemma build_transaction_from_form_ok
    (date_str ty category price_str memo : str) (es is_ ts : list str) (t : Transaction) :
  build_transaction_from_form date_str ty category price_str memo es is_ ts = Ok t ->
  exists d price c,
    parse_date date_str = Ok d
    /\ validate_transaction_type ty ts = Ok (strip ty)
    /\ parse_price price_str = Ok price
    /\ normalize_category category (strip ty) es is_ = Ok c
    /\ t = mkTransaction date_str (strip ty) c price (strip memo).
Proof.
  unfold build_transaction_from_form.
  destruct (parse_date date_str) as [d|e]; cbn [bind]; [|discriminate].
  destruct (validate_transaction_type ty ts) as [vt|e] eqn:Ev; cbn [bind]; [|discriminate].
  assert (vt = strip ty).
  { unfold validate_transaction_type in Ev.
    destruct (negb (str_in (strip ty) ts)); inversion Ev; reflexivity. }
  subst vt.
  destruct (parse_price price_str) as [p|e]; cbn [bind]; [|discriminate].
  destruct (normalize_category category (strip ty) es is_) as [c|e]; cbn [bind];
    [|discriminate].
  intros H. inversion H. exists d, p, c. auto.
Qed.



End Pipeline.



(* ================================================================== *)
(** * C1: export then import *)
(* ================================================================== *)

Section RoundTrip.
Context {U : UnicodeData}.



End RoundTrip.



(* ================================================================== *)
(** * C2: the order of the checks *)
(* ================================================================== *)

Section CheckOrder.
Context {U : UnicodeData}.

Lemma normalize_category_total (category ty : str) (es is_ : list str) :
  es <> [] -> is_ <> [] -> exists c, normalize_category category ty es is_ = Ok c.
Proof.
  intros He Hi. unfold normalize_category.
  destruct (is_empty _ || negb (str_in _ _)); [|eauto].
  destruct (str_eqb ty EXPENSE); [destruct es | destruct is_]; simpl; eauto; congruence.
Qed.

(** C2.  [build_transaction_from_form] reports the error of the first
    failing check, in the order date, kind, amount: a date error whatever
    the other fields are; a kind error only when the date is accepted,
    whatever the amount is; an amount error only when date and kind are
    accepted.  With date, kind and amount accepted the build succeeds:
    normalizing the category never fails (the category lists not being
    empty). *)
Theorem build_transaction_check_order
    (date_str ty category price_str memo : str) (es is_ ts : list str) :
  (forall e, parse_date date_str = Raise e ->
     build_transaction_from_form date_str ty category price_str memo es is_ ts = Raise e)
  /\ (forall d e, parse_date date_str = Ok d ->
        validate_transaction_type ty ts = Raise e ->
        build_transaction_from_form date_str ty category price_str memo es is_ ts = Raise e)
  /\ (forall d v e, parse_date date_str = Ok d ->
        validate_transaction_type ty ts = Ok v ->
        parse_price price_str = Raise e ->
        build_transaction_from_form date_str ty category price_str memo es is_ ts = Raise e)
  /\ (forall d v p, parse_date date_str = Ok d ->
        validate_transaction_type ty ts = Ok v ->
        parse_price price_str = Ok p ->
        es <> [] -> is_ <> [] ->
        exists c,
          build_transaction_from_form date_str ty category price_str memo es is_ ts
          = Ok (mkTransaction date_str v c p (strip memo))).
Proof.
  unfold build_transaction_from_form. repeat split.
  - intros e ->. reflexivity.
  - intros d e -> ->. reflexivity.
  - intros d v e -> -> ->. reflexivity.
  - intros d v p -> -> -> He Hi. cbn [bind].
    destruct (normalize_category_total category v es is_ He Hi) as [c ->].
    exists c. reflexivity.
Qed.

End CheckOrder.

(** An input with an impossible date and an unparsable amount: the date
    error is the one reported. *)
Lemma build_transaction_check_order_witness :
  parse_date (U := fullwidth_digits) (lit "2024/02/30") = Raise (ValueError (lit "invalid_date"))
  /\ parse_price (U := fullwidth_digits) (lit "abc") = Raise (ValueError (lit "invalid_price"))
  /\ build_transaction_from_form (U := fullwidth_digits)
       (lit "2024/02/30") (lit "支出") (lit "食費") (lit "abc") []
       EXPENSE_CATEGORIES INCOME_CATEGORIES TRANSACTION_TYPES
     = Raise (ValueError (lit "invalid_date")).
Proof.
  split; [reflexivity|]. split; [reflexivity|].
  exact (proj1 (build_transaction_check_order (U := fullwidth_digits)
                  (lit "2024/02/30") (lit "支出") (lit "食費") (lit "abc") []
                  EXPENSE_CATEGORIES INCOME_CATEGORIES TRANSACTION_TYPES)
           (ValueError (lit "invalid_date")) eq_refl).
Defined.

(* ================================================================== *)
(** * C8: the category of a built transaction *)
(* ================================================================== *)

Section CategoryInvariant.
Context {U : UnicodeData}.

Lemma normalize_category_default (category ty : str) (es is_ : list str) (c : str) :
  normalize_category category ty es is_ = Ok c ->
  strip category = [] \/ ~ In (strip category) (categories_of ty es is_) ->
  hd_error (categories_of ty es is_) = Some c.
Proof.
  unfold normalize_category, categories_of.
  set (cats := if str_eqb ty EXPENSE then es else is_).
  assert (Hn : (if is_empty category then [] else strip category) = strip category).
  { destruct category; reflexivity. }
  rewrite Hn. intros H Hcase.
  assert (Hcond : is_empty (strip category) || negb (str_in (strip category) cats) = true).
  { destruct Hcase as [E|E].
    - rewrite E. reflexivity.
    - apply str_in_not_In in E. rewrite E. apply orb_true_r. }
  rewrite Hcond in H. destruct cats; simpl in *; congruence.
Qed.

(** C8.  The category of a transaction the pipeline built is an entry of
    the list that goes with its kind (the expense list for an expense, the
    income list otherwise); when the submitted category, once trimmed, is
    empty or is not in that list, the transaction carries the first entry of
    the list. *)
Theorem built_category_in_list
    (date_str ty category price_str memo : str) (es is_ ts : list str) (t : Transaction) :
  build_transaction_from_form date_str ty category price_str memo es is_ ts = Ok t ->
  In (t_category t) (categories_of (t_transaction_type t) es is_)
  /\ (strip category = []
      \/ ~ In (strip category) (categories_of (t_transaction_type t) es is_) ->
      hd_error (categories_of (t_transaction_type t) es is_) = Some (t_category t)).
Proof.
  intros H. apply build_transaction_from_form_ok in H as (d & p & c & _ & _ & _ & Hc & ->).
  cbn [t_category t_transaction_type]. split.
  - now apply normalize_category_member in Hc.
  - now apply normalize_category_default.
Qed.

End CategoryInvariant.

(** An expense submitted with the category "Unknown" is built, with the
    first expense category. *)
Lemma built_category_in_list_witness :
  build_transaction_from_form (U := fullwidth_digits)
    (lit "2024/01/05") (lit "支出") (lit "Unknown") (lit "980") []
    EXPENSE_CATEGORIES INCOME_CATEGORIES TRANSACTION_TYPES
  = Ok (mkTransaction (lit "2024/01/05") (lit "支出") (lit "食費") (Fin false 980 0) [])
  /\ In (lit "食費") EXPENSE_CATEGORIES
  /\ hd_error EXPENSE_CATEGORIES = Some (lit "食費").
Proof.
  split; [reflexivity|].
  pose proof (built_category_in_list (U := fullwidth_digits)
                (lit "2024/01/05") (lit "支出") (lit "Unknown") (lit "980") []
                EXPENSE_CATEGORIES INCOME_CATEGORIES TRANSACTION_TYPES
                (mkTransaction (lit "2024/01/05") (lit "支出") (lit "食費") (Fin false 980 0) [])
                eq_refl) as [Hin Hdef].
  split; [exact Hin|]. apply Hdef. right.
  intros Hmem. apply str_in_In in Hmem. vm_compute in Hmem. discriminate.
Defined.

(* ================================================================== *)
(** * C10: totals have two branches *)
(* ================================================================== *)

Lemma totals_loop_app (vals rest : list Item) :
  forall expense income,
    totals_loop (vals ++ rest) expense income
    = (acc <- totals_loop vals expense income ;;
       totals_loop rest (fst acc) (snd acc)).
Proof.
  induction vals as [|it vals IH]; intros expense income; [reflexivity|].
  cbn [app totals_loop].
  destruct (str_eqb (item_transaction_type it) EXPENSE).
  - destruct (dec_add expense (item_price it)); [apply IH | reflexivity].
  - destruct (dec_add income (item_price it)); [apply IH | reflexivity].
Qed.

(** C10.  In the totals loop an entry whose type is anything but the
    expense literal goes to the income accumulator: after the entries
    before it, its amount is added to the income sum and the expense sum is
    left as it was. *)
Theorem totals_loop_other_type_is_income
    (vals : list Item) (it : Item) (expense income : Decimal) :
  item_transaction_type it <> EXPENSE ->
  totals_loop (vals ++ [it]) expense income
  = (acc <- totals_loop vals expense income ;;
     income' <- dec_add (snd acc) (item_price it) ;;
     Ok (fst acc, income')).
Proof.
  intros H. apply str_eqb_neq in H. rewrite totals_loop_app.
  destruct (totals_loop vals expense income) as [[e i]|]; [|reflexivity].
  cbn [bind fst snd totals_loop]. rewrite H. reflexivity.
Qed.

(** A stored entry of an unknown type ("振替", a transfer) is counted as
    income. *)
Lemma totals_loop_other_type_is_income_witness :
  lit "振替" <> EXPENSE
  /\ totals [(item_id 1, mkItem (lit "2024/01/05") (lit "支出") (lit "食費") (Fin false 100 0) []);
             (item_id 2, mkItem (lit "2024/01/06") (lit "振替") (lit "食費") (Fin false 70 0) [])]
     = Ok (Fin false 100 0, Fin false 70 0, Fin true 30 0).
Proof.
  assert (Hne : lit "振替" <> EXPENSE) by (vm_compute; discriminate).
  split; [exact Hne|].
  pose proof (totals_loop_other_type_is_income
                [mkItem (lit "2024/01/05") (lit "支出") (lit "食費") (Fin false 100 0) []]
                (mkItem (lit "2024/01/06") (lit "振替") (lit "食費") (Fin false 70 0) [])
                (Decimal_of_N 0) (Decimal_of_N 0) Hne) as H.
  cbn [app] in H. unfold totals. cbn [values map snd]. rewrite H. reflexivity.
Defined.

(* ================================================================== *)
(** * C4: what [parse_price] can do *)
(* ================================================================== *)

Section ParsePrice.
Context {U : UnicodeData}.

(** Every outcome of [parse_price]: a value, one of its two documented
    errors, or decimal.InvalidOperation, the last exactly when the text
    denotes a NaN. *)
Lemma parse_price_outcomes (text : str) :
  (exists v, parse_price text = Ok v)
  \/ parse_price text = Raise (ValueError (lit "invalid_price"))
  \/ parse_price text = Raise (ValueError (lit "negative_price"))
  \/ (parse_price text = Raise InvalidOperation
      /\ exists s p, parse_decimal text = Ok (NaN s p) \/ parse_decimal text = Ok (sNaN s p)).
Proof.
  unfold parse_price.
  assert (Hd : (exists d, parse_decimal text = Ok d) \/ parse_decimal text = Raise InvalidOperation).
  { unfold parse_decimal. destruct (is_empty _); [now right|].
    unfold Decimal_of_str. destruct (numeric_as_ascii _); [|now right].
    destruct (take_sign _) as [sg body]. destruct (parse_unsigned sg body); eauto. }
  destruct Hd as [[d Hd]| ->]; [rewrite Hd | now right; left].
  cbn [bind]. destruct d as [s c e|s|s p|s p]; cbn [dec_lt Decimal_of_N bind].
  - destruct (fin_compare s c e false 1 0); eauto.
  - destruct s; cbn; eauto.
  - right; right; right. eauto.
  - right; right; right. eauto.
Qed.

(** C4 (the failing input).  The text "NaN" is parsed by [Decimal], and the
    comparison [value < 1] raises decimal.InvalidOperation outside the [try]:
    an error that is neither of the two ValueErrors. *)
Theorem parse_price_nan_escapes :
  parse_price (lit "NaN") = Raise InvalidOperation.
Proof. reflexivity. Qed.

(** The three examples of the specification. *)
Lemma parse_price_examples :
  parse_price (lit "¥1,234") = Ok (Fin false 1234 0)
  /\ parse_price (lit "0") = Raise (ValueError (lit "negative_price"))
  /\ parse_price [] = Raise (ValueError (lit "invalid_price")).
Proof. repeat split. Qed.

End ParsePrice.

(* ================================================================== *)
(** * C3: rows that fail validation *)
(* ================================================================== *)

(** As long as the validator raises nothing but ValueError, every row is
    either accepted or counted: the row loop does not leave early. *)
Lemma import_rows_counts (validators : list str -> result Transaction)
    (rows : list (list str)) :
  Forall (fun row => forall e, validators row = Raise e -> is_ValueError e = true) rows ->
  forall added invalid transactions,
  exists transactions',
    import_rows validators rows added invalid transactions
    = Ok ((added + length (filter (fun row => match validators row with
                                              | Ok _ => true | Raise _ => false end) rows))%nat,
          (invalid + length (filter (fun row => match validators row with
                                                | Ok _ => false | Raise _ => true end) rows))%nat,
          transactions').
Proof.
  induction 1 as [|row rows Hrow _ IH]; intros added invalid transactions.
  - exists transactions. cbn. now rewrite !Nat.add_0_r.
  - cbn [import_rows filter]. destruct (validators row) as [t|e] eqn:E.
    + destruct (IH (S added) invalid (transactions ++ [t])) as [ts' ->].
      exists ts'. cbn [length]. now rewrite Nat.add_succ_r.
    + specialize (Hrow e eq_refl). destruct e; try discriminate.
      destruct (IH added (S invalid) transactions) as [ts' ->].
      exists ts'. cbn [length]. now rewrite Nat.add_succ_r.
Qed.

Section ImportRows.
Context {U : UnicodeData}.

(** C3 (the failing input).  A readable file whose second row has the
    amount "NaN": the validator raises decimal.InvalidOperation, which the
    row loop does not catch, and the whole import fails with an IOError
    although the other two rows are valid. *)
Theorem import_csv_nan_row_aborts (self : TransactionManager) (fs : FileSystem) (path : str) :
  file_text fs path = Some nan_file ->
  import_csv path row_validator (self, fs) = (Raise (IOError InvalidOperation), (self, fs)).
Proof. intros H. unfold import_csv. now rewrite H. Qed.

(** The example of the specification: three valid rows and one row of two
    fields give three accepted and one rejected. *)
Lemma import_csv_short_row (self : TransactionManager) (fs : FileSystem) (path : str) :
  file_text fs path = Some short_row_file ->
  exists transactions,
    import_csv path row_validator (self, fs) = (Ok (3%nat, 1%nat, transactions), (self, fs)).
Proof. intros H. unfold import_csv. rewrite H. eexists. reflexivity. Qed.

End ImportRows.

Lemma import_csv_nan_row_aborts_witness :
  file_text (mkFS (fun _ => Some nan_file) (fun _ => false)) (lit "in.csv") = Some nan_file
  /\ import_csv (lit "in.csv") (row_validator (U := fullwidth_digits))
       (mkManager [], mkFS (fun _ => Some nan_file) (fun _ => false))
     = (Raise (IOError InvalidOperation),
        (mkManager [], mkFS (fun _ => Some nan_file) (fun _ => false))).
Proof.
  split; [reflexivity|].
  exact (import_csv_nan_row_aborts (U := fullwidth_digits) (mkManager [])
           (mkFS (fun _ => Some nan_file) (fun _ => false)) (lit "in.csv") eq_refl).
Defined.

(* ================================================================== *)
(** * C7: import and export leave the store alone *)
(* ================================================================== *)

Lemma import_csv_state (path : str) (validators : list str -> result Transaction)
    (s : Store) :
  snd (import_csv path validators s) = s.
Proof.
  destruct s as [self fs]. unfold import_csv.
  destruct (file_text fs path); [destruct (import_text validators _)|]; reflexivity.
Qed.

Lemma export_csv_manager (path : str) (s : Store) :
  fst (snd (export_csv path s)) = fst s.
Proof. destruct s as [self fs]. unfold export_csv. destruct (writable fs path); reflexivity. Qed.

Section Atomicity.
Context {U : UnicodeData}.

Lemma on_import_csv_failed (path : str) (app : App) (e : exn) :
  fst (import_csv path row_validator (manager app, disk app)) = Raise e ->
  manager (snd (on_import_csv path app)) = manager app
  /\ tree (snd (on_import_csv path app)) = tree app.
Proof.
  intros H. unfold on_import_csv. destruct (is_empty path); [split; reflexivity|].
  unfold try_except, mbind, on_manager.
  pose proof (import_csv_state path row_validator (manager app, disk app)) as Hs.
  destruct (import_csv path row_validator (manager app, disk app)) as [r [mgr fs]].
  cbn [fst snd] in H, Hs. subst r. inversion Hs; subst. split; reflexivity.
Qed.

Lemma on_export_csv_manager (path : str) (app : App) :
  manager (snd (on_export_csv path app)) = manager app.
Proof.
  unfold on_export_csv, mbind, on_manager, get_all_items. cbn [fst snd].
  destruct (items (manager app)); [reflexivity|].
  destruct (is_empty path); [reflexivity|].
  unfold try_except, mbind, on_manager.
  cbn [manager disk tree total_var detail_var dialogs].
  pose proof (export_csv_manager path (manager app, disk app)) as Hm.
  destruct (export_csv path (manager app, disk app)) as [[n|e] [mgr fs]];
    cbn [fst snd] in Hm; subst mgr; reflexivity.
Qed.

(** C7.  [import_csv] parses the whole file and returns the accepted
    transactions without touching the manager or the disk, whatever the file
    holds; the handler inserts them only afterwards, so when the import
    raises (an unreadable file in particular) the store and the list widget
    are as they were.  [export_csv] never changes the manager, and a failed
    export changes nothing at all. *)
Theorem import_export_leave_store :
  (forall path validators s, snd (import_csv path validators s) = s)
  /\ (forall path app e,
        fst (import_csv path row_validator (manager app, disk app)) = Raise e ->
        manager (snd (on_import_csv path app)) = manager app
        /\ tree (snd (on_import_csv path app)) = tree app)
  /\ (forall path app,
        path <> [] -> file_text (disk app) path = None ->
        on_import_csv path app
        = (Ok tt, mkApp (manager app) (disk app) (tree app) (total_var app) (detail_var app)
                    (dialogs app ++ [showerror (lit "取込エラー") (IOError OSError)])))
  /\ (forall path s, fst (snd (export_csv path s)) = fst s)
  /\ (forall path s, writable (snd s) path = false ->
        export_csv path s = (Raise (IOError OSError), s))
  /\ (forall path app, manager (snd (on_export_csv path app)) = manager app).
Proof.
  split; [exact import_csv_state|].
  split; [exact on_import_csv_failed|].
  split.
  { intros path app Hp Hf. unfold on_import_csv.
    destruct path as [|c path]; [congruence|]. cbn [is_empty].
    unfold try_except, mbind, on_manager, import_csv. rewrite Hf. reflexivity. }
  split; [exact export_csv_manager|].
  split; [|exact on_export_csv_manager].
  intros path [self fs] Hw. cbn [snd] in Hw. unfold export_csv. now rewrite Hw.
Qed.

End Atomicity.

(* ================================================================== *)
(** * C5: the errors of [parse_date] *)
(* ================================================================== *)

Lemma split_aux_join (sep : char) (s : str) :
  forall cur, join sep (split_aux sep cur s) = rev cur ++ s.
Proof.
  induction s as [|c s IH]; intros cur; cbn [split_aux].
  - cbn. now rewrite app_nil_r.
  - destruct (c =? sep)%N eqn:E.
    + apply N.eqb_eq in E. subst c. specialize (IH []).
      destruct (split_aux sep [] s) as [|p ps] eqn:Es.
      * destruct s; cbn in Es; [discriminate | destruct (_ =? _)%N; discriminate].
      * change (join sep (rev cur :: p :: ps)) with (rev cur ++ sep :: join sep (p :: ps)).
        rewrite IH. reflexivity.
    + rewrite IH. cbn [rev]. now rewrite <- app_assoc.
Qed.

Lemma split_aux_no_sep (sep : char) (s : str) :
  forall cur, Forall (fun c => c <> sep) cur ->
    Forall (Forall (fun c => c <> sep)) (split_aux sep cur s).
Proof.
  induction s as [|c s IH]; intros cur Hcur; cbn [split_aux].
  - constructor; [now apply Forall_rev | constructor].
  - destruct (c =? sep)%N eqn:E.
    + constructor; [now apply Forall_rev | apply IH; constructor].
    + apply IH. constructor; [now apply N.eqb_neq | assumption].
Qed.

Lemma split_three (s a b c : str) :
  split 47%N s = [a; b; c] ->
  s = a ++ 47%N :: b ++ 47%N :: c
  /\ Forall (fun x => x <> 47%N) a /\ Forall (fun x => x <> 47%N) b
  /\ Forall (fun x => x <> 47%N) c.
Proof.
  unfold split. intros H.
  pose proof (split_aux_join 47%N s []) as Hj.
  pose proof (split_aux_no_sep 47%N s [] ltac:(constructor)) as Hn.
  rewrite H in Hj, Hn. cbn in Hj.
  inversion Hn as [|? ? Ha Hn1]; subst. inversion Hn1 as [|? ? Hb Hn2]; subst.
  inversion Hn2 as [|? ? Hc _]; subst. auto.
Qed.

Lemma replace_app (old : char) (new a b : str) :
  replace old new (a ++ b) = replace old new a ++ replace old new b.
Proof.
  induction a as [|c a IH]; [reflexivity|]. cbn [app replace].
  destruct (c =? old)%N; rewrite IH; [now rewrite app_assoc | reflexivity].
Qed.

(** Where the first separator is decides the two pieces. *)
Lemma first_sep_unique (sep : char) (a a' r r' : str) :
  Forall (fun c => c <> sep) a -> Forall (fun c => c <> sep) a' ->
  a ++ sep :: r = a' ++ sep :: r' -> a = a' /\ r = r'.
Proof.
  intros Ha. revert a'. induction Ha as [|x a Hx _ IH]; intros a' Ha' H.
  - destruct Ha' as [|x' a' Hx' _]; cbn in H.
    + inversion H. auto.
    + inversion H. congruence.
  - destruct Ha' as [|x' a' Hx' Ha']; cbn in H.
    + inversion H. congruence.
    + inversion H; subst. destruct (IH a' Ha' H2). subst. auto.
Qed.

Lemma str_contains_no_first (n0 : char) (needle hay : str) :
  Forall (fun c => c <> n0) hay -> str_contains (n0 :: needle) hay = false.
Proof.
  induction 1 as [|c hay Hc _ IH]; [reflexivity|].
  cbn [str_contains is_prefix]. rewrite IH.
  replace (n0 =? c)%N with false by (symmetry; apply N.eqb_neq; congruence).
  reflexivity.
Qed.

(** The message of a rejected ISO string mentions neither the month nor
    the day when the string has no letter "m" or "d". *)
Lemma invalid_isoformat_not_range (s : str) :
  Forall (fun c => c <> 109%N /\ c <> 100%N) s ->
  str_contains (lit "month must be in") (lit "Invalid isoformat string: '" ++ s ++ lit "'")
  || str_contains (lit "day is out of range") (lit "Invalid isoformat string: '" ++ s ++ lit "'")
  = false.
Proof.
  intros H.
  assert (H1 : str_contains (lit "month must be in") (s ++ lit "'") = false).
  { apply str_contains_no_first. apply Forall_app. split.
    - eapply Forall_impl; [|exact H]. intros c [Hc _]. exact Hc.
    - repeat constructor. discriminate. }
  assert (H2 : str_contains (lit "day is out of range") (s ++ lit "'") = false).
  { apply str_contains_no_first. apply Forall_app. split.
    - eapply Forall_impl; [|exact H]. intros c [_ Hc]. exact Hc.
    - repeat constructor. discriminate. }
  assert (E1 : str_contains (lit "month must be in")
                 (lit "Invalid isoformat string: '" ++ s ++ lit "'")
               = str_contains (lit "month must be in") (s ++ lit "'")) by reflexivity.
  assert (E2 : str_contains (lit "day is out of range")
                 (lit "Invalid isoformat string: '" ++ s ++ lit "'")
               = str_contains (lit "day is out of range") (s ++ lit "'")) by reflexivity.
  rewrite E1, E2, H1, H2. reflexivity.
Qed.

(** [fromisoformat] gets past the format check only on YYYY-MM-DD. *)
Lemma fromisoformat_shape (s : str) :
  fromisoformat s <> Raise (invalid_isoformat s) ->
  exists y1 y2 y3 y4 m1 m2 d1 d2,
    s = [y1; y2; y3; y4; 45%N; m1; m2; 45%N; d1; d2]
    /\ forallb is_ascii_digit [y1; y2; y3; y4; m1; m2; d1; d2] = true.
Proof.
  unfold fromisoformat.
  destruct s as [|y1 [|y2 [|y3 [|y4 [|s1 [|m1 [|m2 [|s2 [|d1 [|d2 [|x s]]]]]]]]]]];
    try congruence.
  destruct (s1 =? 45)%N eqn:E1; [|cbn [andb]; congruence].
  destruct (s2 =? 45)%N eqn:E2; [|cbn [andb]; congruence].
  destruct (forallb is_ascii_digit [y1; y2; y3; y4; m1; m2; d1; d2]) eqn:E3;
    [|cbn [andb]; congruence].
  intros _. apply N.eqb_eq in E1, E2. subst. exists y1, y2, y3, y4, m1, m2, d1, d2. auto.
Qed.

Lemma ascii_digit_range (c : char) : is_ascii_digit c = true -> (48 <= c <= 57)%N.
Proof.
  unfold is_ascii_digit. intros H. apply andb_prop in H as [H1 H2].
  apply N.leb_le in H1, H2. lia.
Qed.

Lemma split_aux_no_sep_end (sep : char) (a : str) :
  forall cur, Forall (fun c => c <> sep) a -> split_aux sep cur a = [rev cur ++ a].
Proof.
  induction a as [|x a IH]; intros cur Ha; cbn [split_aux].
  - now rewrite app_nil_r.
  - inversion Ha as [|? ? Hx Ha']; subst. apply N.eqb_neq in Hx. rewrite Hx.
    rewrite IH by assumption. cbn [rev]. now rewrite <- app_assoc.
Qed.

Lemma split_aux_app (sep : char) (a r : str) :
  forall cur, Forall (fun c => c <> sep) a ->
    split_aux sep cur (a ++ sep :: r) = (rev cur ++ a) :: split_aux sep [] r.
Proof.
  induction a as [|x a IH]; intros cur Ha; cbn [split_aux app].
  - rewrite N.eqb_refl. now rewrite app_nil_r.
  - inversion Ha as [|? ? Hx Ha']; subst. apply N.eqb_neq in Hx. rewrite Hx.
    rewrite IH by assumption. cbn [rev]. now rewrite <- app_assoc.
Qed.

Lemma split_of_three (a b c : str) :
  Forall (fun x => x <> 47%N) a -> Forall (fun x => x <> 47%N) b ->
  Forall (fun x => x <> 47%N) c ->
  split 47%N (a ++ 47%N :: b ++ 47%N :: c) = [a; b; c].
Proof.
  intros Ha Hb Hc. unfold split.
  rewrite split_aux_app by assumption. rewrite split_aux_app by assumption.
  rewrite split_aux_no_sep_end by assumption. reflexivity.
Qed.

Lemma date_new_not_real (y m d : N) :
  (1 <= y <= 9999)%N -> real_calendar_date y m d = false ->
  date_new y m d = Raise (ValueError (lit "month must be in 1..12"))
  \/ date_new y m d = Raise (ValueError (lit "day is out of range for month")).
Proof.
  intros Hy Hr. unfold date_new, real_calendar_date in *.
  replace (y <? 1)%N with false by (symmetry; apply N.ltb_ge; lia).
  replace (9999 <? y)%N with false by (symmetry; apply N.ltb_ge; lia).
  cbn [orb].
  destruct (N.ltb_spec m 1), (N.ltb_spec 12 m); cbn [orb]; auto.
  replace (1 <=? m)%N with true in Hr by (symmetry; apply N.leb_le; lia).
  replace (m <=? 12)%N with true in Hr by (symmetry; apply N.leb_le; lia).
  cbn [andb] in Hr.
  destruct (N.ltb_spec d 1), (N.ltb_spec (days_in_month y m) d); cbn [orb]; auto.
  replace (1 <=? d)%N with true in Hr by (symmetry; apply N.leb_le; lia).
  replace (d <=? days_in_month y m)%N with true in Hr by (symmetry; apply N.leb_le; lia).
  discriminate.
Qed.

Lemma date_new_real (y m d : N) :
  (1 <= y <= 9999)%N -> real_calendar_date y m d = true -> date_new y m d = Ok (Date y m d).
Proof.
  intros Hy Hr. unfold date_new, real_calendar_date in *.
  apply andb_prop in Hr as [Hr H4]. apply andb_prop in Hr as [Hr H3].
  apply andb_prop in Hr as [H1 H2]. apply N.leb_le in H1, H2, H3, H4.
  replace (y <? 1)%N with false by (symmetry; apply N.ltb_ge; lia).
  replace (9999 <? y)%N with false by (symmetry; apply N.ltb_ge; lia).
  replace (m <? 1)%N with false by (symmetry; apply N.ltb_ge; lia).
  replace (12 <? m)%N with false by (symmetry; apply N.ltb_ge; lia).
  replace (d <? 1)%N with false by (symmetry; apply N.ltb_ge; lia).
  replace (days_in_month y m <? d)%N with false by (symmetry; apply N.ltb_ge; lia).
  reflexivity.
Qed.

Section ParseDate.
Context {U : UnicodeData}.

Lemma isdigit_char_facts (c : char) :
  isdigit_char c = true -> c <> 47%N /\ c <> 45%N /\ c <> 109%N /\ c <> 100%N.
Proof.
  unfold isdigit_char. destruct (N.ltb_spec c 128) as [Hlt|Hge].
  - intros Hd. apply ascii_digit_range in Hd. lia.
  - intros _. lia.
Qed.

Lemma isdigit_Forall (p : str) :
  isdigit p = true -> Forall (fun c => isdigit_char c = true) p.
Proof.
  unfold isdigit. destruct p; [discriminate|]. intros H.
  apply Forall_forall. now apply forallb_forall.
Qed.

Lemma ascii_digits_isdigit (p : str) :
  p <> [] -> forallb is_ascii_digit p = true -> isdigit p = true.
Proof.
  intros Hne H. unfold isdigit. destruct p; [congruence|].
  apply forallb_forall. intros c Hc. rewrite forallb_forall in H. specialize (H c Hc).
  unfold isdigit_char. apply ascii_digit_range in H as Hr.
  replace (c <? 128)%N with true by (symmetry; apply N.ltb_lt; lia). exact H.
Qed.

Lemma check_parts_spec (parts : list str) :
  check_parts parts
  = if forallb isdigit parts then Ok tt else Raise (ValueError (lit "format_error")).
Proof.
  induction parts as [|p parts IH]; [reflexivity|]. cbn [check_parts forallb].
  destruct (isdigit p); [exact IH | reflexivity].
Qed.

(** With three numeric groups the outcome is that of [fromisoformat] on
    the groups joined by dashes. *)
Lemma parse_date_three_groups (text a b c : str) :
  strip text <> [] ->
  split 47%N (strip text) = [a; b; c] ->
  isdigit a = true -> isdigit b = true -> isdigit c = true ->
  parse_date text
  = match fromisoformat (a ++ 45%N :: b ++ 45%N :: c) with
    | Raise (ValueError e) =>
        if str_contains (lit "month must be in") e
           || str_contains (lit "day is out of range") e
        then Raise (ValueError (lit "invalid_date"))
        else Raise (ValueError (lit "format_error"))
    | r => r
    end.
Proof.
  intros Hne Hs Ha Hb Hc. unfold parse_date.
  destruct (strip text) as [|x t] eqn:Et; [congruence|]. cbn [is_empty].
  rewrite Hs. cbn [length Nat.eqb negb]. rewrite check_parts_spec.
  cbn [forallb]. rewrite Ha, Hb, Hc. cbn [andb bind].
  apply split_three in Hs as (Heq & Ha' & Hb' & Hc'). rewrite Heq.
  rewrite replace_app. cbn [replace N.eqb Pos.eqb]. rewrite replace_app.
  cbn [replace N.eqb Pos.eqb app]. rewrite !replace_fixed by assumption. reflexivity.
Qed.

Lemma isdigit_no (p : str) (x : char) :
  isdigit p = true -> (x = 47%N \/ x = 45%N \/ x = 109%N \/ x = 100%N) ->
  Forall (fun c => c <> x) p.
Proof.
  intros Hp Hx. apply isdigit_Forall in Hp. eapply Forall_impl; [|exact Hp].
  intros c Hc. apply isdigit_char_facts in Hc. lia.
Qed.

End ParseDate.

Lemma fromisoformat_cases (s : str) :
  fromisoformat s = Raise (invalid_isoformat s)
  \/ exists y1 y2 y3 y4 m1 m2 d1 d2,
       s = [y1; y2; y3; y4; 45%N; m1; m2; 45%N; d1; d2]
       /\ forallb is_ascii_digit [y1; y2; y3; y4; m1; m2; d1; d2] = true.
Proof.
  unfold fromisoformat.
  destruct s as [|y1 [|y2 [|y3 [|y4 [|s1 [|m1 [|m2 [|s2 [|d1 [|d2 [|x s]]]]]]]]]]];
    auto.
  destruct (s1 =? 45)%N eqn:E1; [|now left].
  destruct (s2 =? 45)%N eqn:E2; [|now left].
  destruct (forallb is_ascii_digit [y1; y2; y3; y4; m1; m2; d1; d2]) eqn:E3; [|now left].
  right. apply N.eqb_eq in E1, E2. subst. exists y1, y2, y3, y4, m1, m2, d1, d2. auto.
Qed.

Lemma ascii_digits_no (p : str) (x : char) :
  forallb is_ascii_digit p = true -> (x < 48 \/ 57 < x)%N -> Forall (fun c => c <> x) p.
Proof.
  intros Hp Hx. apply Forall_forall. intros c Hc. rewrite forallb_forall in Hp.
  specialize (Hp c Hc). apply ascii_digit_range in Hp. lia.
Qed.

Lemma four_digits_le (y1 y2 y3 y4 : char) :
  forallb is_ascii_digit [y1; y2; y3; y4] = true ->
  (N_of_digits [y1; y2; y3; y4] <= 9999)%N.
Proof.
  cbn [forallb]. intros H.
  apply andb_prop in H as [H1 H]. apply andb_prop in H as [H2 H].
  apply andb_prop in H as [H3 H]. apply andb_prop in H as [H4 _].
  apply ascii_digit_range in H1, H2, H3, H4. unfold N_of_digits. cbn [fold_left]. lia.
Qed.

Lemma eight_digits (y1 y2 y3 y4 m1 m2 d1 d2 : char) :
  forallb is_ascii_digit [y1; y2; y3; y4; m1; m2; d1; d2] = true ->
  forallb is_ascii_digit [y1; y2; y3; y4] = true
  /\ forallb is_ascii_digit [m1; m2] = true
  /\ forallb is_ascii_digit [d1; d2] = true.
Proof.
  change [y1; y2; y3; y4; m1; m2; d1; d2] with ([y1; y2; y3; y4] ++ [m1; m2] ++ [d1; d2]).
  rewrite !forallb_app. intros H.
  apply andb_prop in H as [H1 H]. apply andb_prop in H as [H2 H3]. auto.
Qed.

Section ParseDateErrors.
Context {U : UnicodeData}.

Lemma parse_date_not_shaped (text a b c : str) :
  strip text <> [] ->
  split 47%N (strip text) = [a; b; c] ->
  isdigit a = true -> isdigit b = true -> isdigit c = true ->
  length a <> 4%nat \/ length b <> 2%nat \/ length c <> 2%nat ->
  parse_date text = Raise (ValueError (lit "format_error")).
Proof.
  intros Hne Hs Ha Hb Hc Hlen.
  rewrite (parse_date_three_groups text a b c Hne Hs Ha Hb Hc).
  destruct (fromisoformat_cases (a ++ 45%N :: b ++ 45%N :: c)) as [E|E].
  - rewrite E. unfold invalid_isoformat. rewrite invalid_isoformat_not_range; [reflexivity|].
    assert (Hdig : forall p, isdigit p = true ->
                     Forall (fun x => x <> 109%N /\ x <> 100%N) p).
    { intros p Hp. eapply Forall_impl; [|apply isdigit_Forall; exact Hp].
      intros x Hx. apply isdigit_char_facts in Hx. tauto. }
    apply Forall_app; split; [now apply Hdig|].
    constructor; [split; discriminate|].
    apply Forall_app; split; [now apply Hdig|].
    constructor; [split; discriminate | now apply Hdig].
  - exfalso. destruct E as (y1 & y2 & y3 & y4 & m1 & m2 & d1 & d2 & Heq & Hd).
    change [y1; y2; y3; y4; 45%N; m1; m2; 45%N; d1; d2]
      with ([y1; y2; y3; y4] ++ 45%N :: [m1; m2] ++ 45%N :: [d1; d2]) in Heq.
    destruct (eight_digits _ _ _ _ _ _ _ _ Hd) as (Hy & Hm & _).
    apply first_sep_unique in Heq as [Ea Heq];
      [|apply isdigit_no; auto | apply ascii_digits_no; [exact Hy | lia]].
    apply first_sep_unique in Heq as [Eb Ec];
      [|apply isdigit_no; auto | apply ascii_digits_no; [exact Hm | lia]].
    subst. cbn [length] in Hlen. destruct Hlen as [H|[H|H]]; congruence.
Qed.

Lemma parse_date_shaped (text : str) (y1 y2 y3 y4 m1 m2 d1 d2 : char) :
  strip text = [y1; y2; y3; y4; 47%N; m1; m2; 47%N; d1; d2] ->
  forallb is_ascii_digit [y1; y2; y3; y4; m1; m2; d1; d2] = true ->
  parse_date text
  = match date_new (N_of_digits [y1; y2; y3; y4]) (N_of_digits [m1; m2])
            (N_of_digits [d1; d2]) with
    | Raise (ValueError e) =>
        if str_contains (lit "month must be in") e
           || str_contains (lit "day is out of range") e
        then Raise (ValueError (lit "invalid_date"))
        else Raise (ValueError (lit "format_error"))
    | r => r
    end.
Proof.
  intros Hs Hd.
  destruct (eight_digits _ _ _ _ _ _ _ _ Hd) as (Hy & Hm & Hdd).
  rewrite (parse_date_three_groups text [y1; y2; y3; y4] [m1; m2] [d1; d2]).
  - cbn [app fromisoformat]. rewrite !N.eqb_refl, Hd. reflexivity.
  - rewrite Hs. discriminate.
  - rewrite Hs.
    change [y1; y2; y3; y4; 47%N; m1; m2; 47%N; d1; d2]
      with ([y1; y2; y3; y4] ++ 47%N :: [m1; m2] ++ 47%N :: [d1; d2]).
    apply split_of_three; (eapply ascii_digits_no; [eassumption | lia]).
  - apply ascii_digits_isdigit; [discriminate | exact Hy].
  - apply ascii_digits_isdigit; [discriminate | exact Hm].
  - apply ascii_digits_isdigit; [discriminate | exact Hdd].
Qed.

(** C5, as the code has it.  [parse_date] fails with "empty" when the
    trimmed text is blank; with "format_error" when the trimmed text does not
    split at "/" into exactly three groups of digits, and also when it does
    but the groups are not of four, two and two digits ("2024/2/30"); with
    "invalid_date" when the trimmed text is YYYY/MM/DD in ASCII digits with a
    year of at least 1 and the month is outside 1..12 or the day does not
    exist in that month of that year. *)
Theorem parse_date_errors (text : str) :
  (strip text = [] -> parse_date text = Raise (ValueError (lit "empty")))
  /\ (strip text <> [] ->
      (length (split 47%N (strip text)) <> 3%nat
       \/ exists part, In part (split 47%N (strip text)) /\ isdigit part = false) ->
      parse_date text = Raise (ValueError (lit "format_error")))
  /\ (forall a b c,
        strip text <> [] -> split 47%N (strip text) = [a; b; c] ->
        isdigit a = true -> isdigit b = true -> isdigit c = true ->
        length a <> 4%nat \/ length b <> 2%nat \/ length c <> 2%nat ->
        parse_date text = Raise (ValueError (lit "format_error")))
  /\ (forall y1 y2 y3 y4 m1 m2 d1 d2,
        strip text = [y1; y2; y3; y4; 47%N; m1; m2; 47%N; d1; d2] ->
        forallb is_ascii_digit [y1; y2; y3; y4; m1; m2; d1; d2] = true ->
        (1 <= N_of_digits [y1; y2; y3; y4])%N ->
        real_calendar_date (N_of_digits [y1; y2; y3; y4]) (N_of_digits [m1; m2])
          (N_of_digits [d1; d2]) = false ->
        parse_date text = Raise (ValueError (lit "invalid_date"))).
Proof.
  split; [|split; [|split]].
  - intros H. unfold parse_date. now rewrite H.
  - intros Hne Hbad. unfold parse_date.
    destruct (strip text) as [|x t] eqn:Et; [congruence|]. cbn [is_empty].
    destruct (length (split 47%N (x :: t)) =? 3)%nat eqn:El; [|reflexivity].
    cbn [negb]. rewrite check_parts_spec.
    destruct Hbad as [Hl|(part & Hin & Hp)].
    + apply Nat.eqb_eq in El. congruence.
    + destruct (forallb isdigit (split 47%N (x :: t))) eqn:Ef; [|reflexivity].
      rewrite forallb_forall in Ef. specialize (Ef part Hin). congruence.
  - intros a b c. apply parse_date_not_shaped.
  - intros y1 y2 y3 y4 m1 m2 d1 d2 Hs Hd Hy Hr.
    rewrite (parse_date_shaped text y1 y2 y3 y4 m1 m2 d1 d2 Hs Hd).
    assert (Hy4 : (N_of_digits [y1; y2; y3; y4] <= 9999)%N).
    { apply four_digits_le. now destruct (eight_digits _ _ _ _ _ _ _ _ Hd). }
    destruct (date_new_not_real _ _ _ (conj Hy Hy4) Hr) as [E|E]; rewrite E; reflexivity.
Qed.

End ParseDateErrors.

(** The three examples of the specification, and a blank text. *)
Lemma parse_date_errors_witness :
  parse_date (U := fullwidth_digits) (lit "2024/02/30") = Raise (ValueError (lit "invalid_date"))
  /\ parse_date (U := fullwidth_digits) (lit "2024/13/01")
     = Raise (ValueError (lit "invalid_date"))
  /\ parse_date (U := fullwidth_digits) (lit "2024-02-30")
     = Raise (ValueError (lit "format_error"))
  /\ parse_date (U := fullwidth_digits) (lit "  ") = Raise (ValueError (lit "empty")).
Proof.
  split; [|split; [|split]].
  - exact (proj2 (proj2 (proj2 (parse_date_errors (U := fullwidth_digits) (lit "2024/02/30"))))
             50 48 50 52 48 50 51 48 eq_refl eq_refl ltac:(vm_compute; discriminate) eq_refl)%N.
  - exact (proj2 (proj2 (proj2 (parse_date_errors (U := fullwidth_digits) (lit "2024/13/01"))))
             50 48 50 52 49 51 48 49 eq_refl eq_refl ltac:(vm_compute; discriminate) eq_refl)%N.
  - apply (proj1 (proj2 (parse_date_errors (U := fullwidth_digits) (lit "2024-02-30")))).
    + discriminate.
    + left. vm_compute. discriminate.
  - exact (proj1 (parse_date_errors (U := fullwidth_digits) (lit "  ")) eq_refl).
Defined.

(** The claim as the specification states it: three numeric groups that
    are not a real calendar date always give "invalid_date".  It fails on a
    one-digit month. *)
Lemma parse_date_short_month_counterexample :
  ~ (forall text y m d,
       numeric_groups text = Some (y, m, d) ->
       real_calendar_date y m d = false ->
       parse_date (U := fullwidth_digits) text = Raise (ValueError (lit "invalid_date"))).
Proof.
  intros H.
  specialize (H (lit "2024/2/30") 2024%N 2%N 30%N eq_refl eq_refl).
  vm_compute in H. discriminate.
Qed.

(* ================================================================== *)
(** * C6: totals are exact within 28 digits *)
(* ================================================================== *)

Lemma signed_abs (z : Z) : signed (z <? 0)%Z (Z.abs_N z) = z.
Proof.
  unfold signed. destruct (z <? 0)%Z eqn:E;
    [apply Z.ltb_lt in E | apply Z.ltb_ge in E]; rewrite N2Z.inj_abs_N; lia.
Qed.

Lemma pow10_pos (k : Z) : (0 <= k -> 1 <= 10 ^ k)%Z.
Proof. intros H. pose proof (Z.pow_pos_nonneg 10 k ltac:(lia) H). lia. Qed.

Lemma pow10_split (a m M : Z) :
  (M <= m <= a)%Z -> (10 ^ (a - M) = 10 ^ (a - m) * 10 ^ (m - M))%Z.
Proof.
  intros H. rewrite <- Z.pow_add_r by lia. f_equal. lia.
Qed.

(** A sum of two finite Decimals that needs at most 28 digits at the
    smaller exponent is computed exactly. *)
Lemma dec_add_units (M : Z) (sa : bool) (ca : N) (xa : Z) (sb : bool) (cb : N) (xb : Z) :
  (Etiny <= M)%Z -> (M <= xa <= 0)%Z -> (M <= xb)%Z ->
  (Z.abs (signed sa ca * 10 ^ (xa - M) + signed sb cb * 10 ^ (xb - M)) < 10 ^ 28)%Z ->
  exists s c x,
    dec_add (Fin sa ca xa) (Fin sb cb xb) = Ok (Fin s c x)
    /\ (M <= x <= 0)%Z
    /\ (signed s c * 10 ^ (x - M)
        = signed sa ca * 10 ^ (xa - M) + signed sb cb * 10 ^ (xb - M))%Z.
Proof.
  intros HM Hxa Hxb Hbound. cbn [dec_add]. cbv zeta.
  set (m := Z.min xa xb).
  assert (Hm : (M <= m <= 0)%Z) by (unfold m; lia).
  assert (Hma : (m <= xa)%Z) by (unfold m; lia).
  assert (Hmb : (m <= xb)%Z) by (unfold m; lia).
  set (z := (signed sa ca * 10 ^ (xa - m) + signed sb cb * 10 ^ (xb - m))%Z).
  assert (HP : (1 <= 10 ^ (m - M))%Z) by (apply pow10_pos; lia).
  assert (Hz : (z * 10 ^ (m - M)
                = signed sa ca * 10 ^ (xa - M) + signed sb cb * 10 ^ (xb - M))%Z).
  { unfold z. rewrite (pow10_split xa m M), (pow10_split xb m M) by lia. ring. }
  rewrite <- Hz in Hbound |- *.
  assert (Habs : (Z.abs z < 10 ^ 28)%Z).
  { rewrite Z.abs_mul in Hbound. rewrite (Z.abs_eq (10 ^ (m - M))) in Hbound by lia.
    nia. }
  clearbody z. clear Hz.
  destruct (z =? 0)%Z eqn:Ez.
  - apply Z.eqb_eq in Ez. subst z. exists (sa && sb), 0%N, m.
    unfold dec_fix. cbn [N.eqb].
    replace (Z.min (Z.max m Etiny) Emax) with m by (unfold Emax; lia).
    repeat split; try lia. unfold signed. destruct (sa && sb); reflexivity.
  - apply Z.eqb_neq in Ez. exists (z <? 0)%Z, (Z.abs_N z), m.
    rewrite signed_abs. repeat split; try lia.
    unfold dec_fix.
    replace (Z.abs_N z =? 0)%N with false by (symmetry; apply N.eqb_neq; lia).
    assert (Hlen : (ndigits (Z.abs_N z) <= 28)%Z).
    { apply (ndigits_le (Z.abs_N z) 28); [lia|].
      apply N2Z.inj_lt. rewrite N2Z.inj_abs_N.
      change (Z.of_N (10 ^ N.of_nat 28)) with (10 ^ 28)%Z. exact Habs. }
    pose proof (ndigits_pos (Z.abs_N z)) as Hlen1.
    cbv zeta. unfold Etop, Emax, Etiny, Emin, prec in *.
    replace (999999 - 28 + 1 <? ndigits (Z.abs_N z) + m - 28)%Z with false
      by (symmetry; apply Z.ltb_ge; lia).
    replace (m <? Z.max (ndigits (Z.abs_N z) + m - 28) (-999999 - 28 + 1))%Z with false
      by (symmetry; apply Z.ltb_ge; lia).
    reflexivity.
Qed.

Lemma holds_units (M : Z) (d : Decimal) (z : Z) :
  holds M d z -> dec_units M d = Some z.
Proof.
  intros (s & c & x & -> & Hx & Hz). cbn [dec_units].
  replace (M <=? x)%Z with true by (symmetry; apply Z.leb_le; lia). now rewrite Hz.
Qed.

Lemma amount_units (M : Z) (d : Decimal) :
  amount_at M d ->
  exists c e, d = Fin false c e /\ (M <= e)%Z
              /\ units_or_0 M d = (Z.of_N c * 10 ^ (e - M))%Z
              /\ (0 <= units_or_0 M d)%Z.
Proof.
  intros (c & e & -> & He). exists c, e. unfold units_or_0. cbn [dec_units signed].
  replace (M <=? e)%Z with true by (symmetry; apply Z.leb_le; lia).
  repeat split; auto. pose proof (pow10_pos (e - M) ltac:(lia)). nia.
Qed.

Lemma exact_sum_cons (M : Z) (b : bool) (it : Item) (vals : list Item) :
  exact_sum M b (it :: vals)
  = ((if Bool.eqb (str_eqb (item_transaction_type it) EXPENSE) b
      then units_or_0 M (item_price it) else 0) + exact_sum M b vals)%Z.
Proof.
  unfold exact_sum. cbn [filter].
  destruct (Bool.eqb (str_eqb (item_transaction_type it) EXPENSE) b); reflexivity.
Qed.

Lemma exact_sum_nonneg (M : Z) (b : bool) (vals : list Item) :
  Forall (fun it => amount_at M (item_price it)) vals -> (0 <= exact_sum M b vals)%Z.
Proof.
  induction 1 as [|it vals Hit _ IH]; [unfold exact_sum; cbn; lia|].
  rewrite exact_sum_cons. apply amount_units in Hit as (c & e & _ & _ & _ & Hpos).
  destruct (Bool.eqb _ b); lia.
Qed.

Lemma dec_add_holds (M : Z) (a p : Decimal) (za : Z) :
  (Etiny <= M)%Z -> holds M a za -> (0 <= za)%Z -> amount_at M p ->
  (za + units_or_0 M p < 10 ^ 28)%Z ->
  exists r, dec_add a p = Ok r /\ holds M r (za + units_or_0 M p).
Proof.
  intros HM (sa & ca & xa & -> & Hxa & Hza) Hpos Hp Hb.
  apply amount_units in Hp as (c & e & -> & He & Hu & Hupos). rewrite Hu in *.
  destruct (dec_add_units M sa ca xa false c e HM Hxa He) as (s & c' & x & Hadd & Hx & Hval).
  - cbn [signed]. rewrite Hza. lia.
  - exists (Fin s c' x). split; [exact Hadd|]. exists s, c', x.
    cbn [signed] in Hval. rewrite Hza in Hval. auto.
Qed.

Lemma totals_loop_exact (M : Z) (vals : list Item) :
  (Etiny <= M)%Z ->
  Forall (fun it => amount_at M (item_price it)) vals ->
  forall e i ze zi,
    holds M e ze -> holds M i zi -> (0 <= ze)%Z -> (0 <= zi)%Z ->
    (ze + exact_sum M true vals < 10 ^ 28)%Z ->
    (zi + exact_sum M false vals < 10 ^ 28)%Z ->
    exists e' i',
      totals_loop vals e i = Ok (e', i')
      /\ holds M e' (ze + exact_sum M true vals)
      /\ holds M i' (zi + exact_sum M false vals).
Proof.
  intros HM Hall. induction Hall as [|it vals Hit Hall IH]; intros e i ze zi He Hi Hze Hzi Hbe Hbi.
  - exists e, i. unfold exact_sum. cbn. rewrite !Z.add_0_r. auto.
  - rewrite !exact_sum_cons in *. cbn [totals_loop].
    pose proof (exact_sum_nonneg M true vals Hall) as Hte.
    pose proof (exact_sum_nonneg M false vals Hall) as Hti.
    pose proof (amount_units M _ Hit) as (c & x & _ & _ & _ & Hupos).
    destruct (str_eqb (item_transaction_type it) EXPENSE); cbn [Bool.eqb] in *.
    + destruct (dec_add_holds M e (item_price it) ze HM He Hze Hit ltac:(lia))
        as (e1 & -> & He1).
      cbn [bind]. rewrite Z.add_0_l in *.
      destruct (IH e1 i (ze + units_or_0 M (item_price it))%Z zi He1 Hi ltac:(lia) Hzi
                  ltac:(lia) Hbi) as (e' & i' & Hl & He' & Hi').
      exists e', i'. rewrite Z.add_assoc. auto.
    + destruct (dec_add_holds M i (item_price it) zi HM Hi Hzi Hit ltac:(lia))
        as (i1 & -> & Hi1).
      cbn [bind]. rewrite Z.add_0_l in *.
      destruct (IH e i1 ze (zi + units_or_0 M (item_price it))%Z He Hi1 Hze ltac:(lia)
                  Hbe ltac:(lia)) as (e' & i' & Hl & He' & Hi').
      exists e', i'. rewrite Z.add_assoc. auto.
Qed.

Lemma dec_sub_holds (M : Z) (i e : Decimal) (zi ze : Z) :
  (Etiny <= M)%Z -> holds M i zi -> holds M e ze ->
  (0 <= zi < 10 ^ 28)%Z -> (0 <= ze < 10 ^ 28)%Z ->
  exists n, dec_sub i e = Ok n /\ holds M n (zi - ze).
Proof.
  intros HM (si & ci & xi & -> & Hxi & Hzi) (se & ce & xe & -> & Hxe & Hze) Hbi Hbe.
  cbn [dec_sub copy_negate].
  assert (Hneg : (signed (negb se) ce * 10 ^ (xe - M) = - ze)%Z).
  { rewrite <- Hze. unfold signed. destruct se; cbn [negb]; ring. }
  destruct (dec_add_units M si ci xi (negb se) ce xe HM Hxi ltac:(lia))
    as (s & c & x & Hadd & Hx & Hval).
  - rewrite Hzi, Hneg. lia.
  - exists (Fin s c x). split; [exact Hadd|]. exists s, c, x.
    rewrite Hzi, Hneg in Hval. repeat split; lia.
Qed.

(** C6, as the code has it.  The amounts being finite and non-negative,
    with exponents at least [M] (a power of ten no smaller than the Etiny of
    the default context), and the expense and income sums needing at most 28
    digits in units of [10^M]: [calculate_totals] returns the exact sum of
    the expense amounts, the exact sum of the other amounts, and their exact
    difference, income minus expense. *)
Theorem totals_exact (d : dict) (M : Z) :
  (Etiny <= M <= 0)%Z ->
  Forall (fun it => amount_at M (item_price it)) (values d) ->
  (exact_sum M true (values d) < 10 ^ 28)%Z ->
  (exact_sum M false (values d) < 10 ^ 28)%Z ->
  exists expense income net,
    totals d = Ok (expense, income, net)
    /\ dec_units M expense = Some (exact_sum M true (values d))
    /\ dec_units M income = Some (exact_sum M false (values d))
    /\ dec_units M net
       = Some (exact_sum M false (values d) - exact_sum M true (values d))%Z.
Proof.
  intros HM Hall Hbe Hbi. unfold totals.
  assert (H0 : holds M (Decimal_of_N 0) 0).
  { exists false, 0%N, 0%Z. repeat split; try lia. }
  destruct (totals_loop_exact M (values d) ltac:(lia) Hall _ _ 0%Z 0%Z H0 H0
              ltac:(lia) ltac:(lia) ltac:(lia) ltac:(lia))
    as (e & i & -> & He & Hi).
  cbn [bind]. rewrite Z.add_0_l in He, Hi.
  pose proof (exact_sum_nonneg M true (values d) Hall) as Hpe.
  pose proof (exact_sum_nonneg M false (values d) Hall) as Hpi.
  destruct (dec_sub_holds M i e _ _ ltac:(lia) Hi He ltac:(lia) ltac:(lia)) as (n & -> & Hn).
  cbn [bind]. exists e, i, n. repeat split; auto using holds_units.
Qed.

(** The example of the specification: (expense=150, income=250, net=100). *)
Lemma totals_exact_witness :
  (Etiny <= 0 <= 0)%Z
  /\ Forall (fun it => amount_at 0 (item_price it)) (values spec_entries)
  /\ (exact_sum 0 true (values spec_entries) < 10 ^ 28)%Z
  /\ (exact_sum 0 false (values spec_entries) < 10 ^ 28)%Z
  /\ totals spec_entries = Ok (Fin false 150 0, Fin false 250 0, Fin false 100 0)
  /\ exists expense income net,
       totals spec_entries = Ok (expense, income, net)
       /\ dec_units 0 expense = Some 150%Z
       /\ dec_units 0 income = Some 250%Z
       /\ dec_units 0 net = Some 100%Z.
Proof.
  assert (H1 : (Etiny <= 0 <= 0)%Z) by (unfold Etiny, Emin, prec; lia).
  assert (H2 : Forall (fun it => amount_at 0 (item_price it)) (values spec_entries)).
  { repeat constructor; eexists; eexists; (split; [reflexivity | lia]). }
  assert (H3 : (exact_sum 0 true (values spec_entries) < 10 ^ 28)%Z) by (vm_compute; reflexivity).
  assert (H4 : (exact_sum 0 false (values spec_entries) < 10 ^ 28)%Z)
    by (vm_compute; reflexivity).
  repeat (split; [assumption|]). split; [reflexivity|].
  exact (totals_exact spec_entries 0 H1 H2 H3 H4).
Defined.

(** The claim as the specification states it, even for whole amounts only:
    the totals of any store are the exact sums.  Two expenses of 10^28 and 1
    add up to 29 digits, which the default context rounds to 28. *)
Lemma totals_rounding_counterexample :
  ~ (forall d : dict,
       Forall (fun it => amount_at 0 (item_price it)) (values d) ->
       exists expense income net,
         totals d = Ok (expense, income, net)
         /\ dec_units 0 expense = Some (exact_sum 0 true (values d))
         /\ dec_units 0 income = Some (exact_sum 0 false (values d))
         /\ dec_units 0 net
            = Some (exact_sum 0 false (values d) - exact_sum 0 true (values d))%Z).
Proof.
  intros H. destruct (H big_entries) as (e & i & n & Ht & He & _).
  - repeat constructor; eexists; eexists; (split; [reflexivity | lia]).
  - vm_compute in Ht. inversion Ht; subst. vm_compute in He. discriminate.
Qed.

(** Both amounts of the counterexample are accepted by [parse_price]. *)
Lemma big_amounts_accepted :
  parse_price (U := fullwidth_digits) (lit "10000000000000000000000000000")
  = Ok (Fin false (10 ^ 28) 0)
  /\ parse_price (U := fullwidth_digits) (lit "1") = Ok (Fin false 1 0)
  /\ totals big_entries
     = Ok (Fin false (10 ^ 27) 1, Fin false 0 0, Fin true (10 ^ 27) 1).
Proof. repeat split. Qed.
